(** * visual-server: the real-time collaboration core

    A shallow embedding of [models/Page.js] (the [hasAccess] method and the
    fields of the page schema that the collaboration code reads or writes),
    of [socket/socketHandlers.js] (the event handlers and the presence
    helpers) and of the block-writing REST routes of [routes/pages.js].

    Conventions.
    - Mongo identifiers are compared through [toString()] in the source and
      are strings here.
    - [version] is a JavaScript Number holding an integer; it is a [Z] here.
    - [new Date()] is a clock reading passed to the handler as a [Z].
    - [socket.emit] and [socket.to(room).emit] are recorded, in program
      order, in the list of emissions a handler returns.
    - [Page.findById] and [page.save()] are the two awaited store calls; both
      can reject, which sends the handler to its [catch] block. *)

From Stdlib Require Import ZArith Lia.
From stdpp Require Import base strings list gmap.

Local Open Scope string_scope.
Local Open Scope list_scope.
Local Open Scope nat_scope.

(** ** Data model (models/Page.js) *)

(** [blockSchema]; the two [Mixed] payloads are kept opaque. *)
Record Block := mkBlock {
  block_id : string;
  block_type : string;
  block_content : string;
  block_styles : string;
  block_children : list string;
  block_parent : option string;
  block_order : Z
}.

(** [collaborators[].role]: the schema's enum ['viewer', 'editor', 'admin'],
    also the only values the callers of [hasAccess] pass as [requiredRole]. *)
Inductive Role := viewer | editor | admin.

Record Collaborator := mkCollaborator {
  collab_user : string;
  collab_role : Role;
  collab_addedAt : Z
}.

(** An element of [page.history]. *)
Record HistoryEntry := mkHistoryEntry {
  h_version : Z;
  h_blocks : list Block;
  h_updatedAt : Z;
  h_updatedBy : string;
  h_changeDescription : string
}.

(** The page document: the fields the collaboration code touches. The
    [pre('save')] hooks only write [slug], [publishedAt] and [publishedUrl],
    which no handler below reads. *)
Record Page := mkPage {
  title : string;
  blocks : list Block;
  owner : string;
  collaborators : list Collaborator;
  version : Z;
  history : list HistoryEntry;
  settings : gmap string string
}.

Definition set_title (t : string) (p : Page) : Page :=
  mkPage t (blocks p) (owner p) (collaborators p) (version p) (history p) (settings p).
Definition set_blocks (b : list Block) (p : Page) : Page :=
  mkPage (title p) b (owner p) (collaborators p) (version p) (history p) (settings p).
Definition set_version (v : Z) (p : Page) : Page :=
  mkPage (title p) (blocks p) (owner p) (collaborators p) v (history p) (settings p).
Definition set_history (h : list HistoryEntry) (p : Page) : Page :=
  mkPage (title p) (blocks p) (owner p) (collaborators p) (version p) h (settings p).
Definition set_settings (s : gmap string string) (p : Page) : Page :=
  mkPage (title p) (blocks p) (owner p) (collaborators p) (version p) (history p) s.

(** [new Page({...req.body, owner})] of POST /api/pages: [createPageSchema]
    admits neither blocks, version, history nor collaborators, so these take
    their schema defaults. *)
Definition newPage (t : string) (o : string) (s : gmap string string) : Page :=
  mkPage t [] o [] 1%Z [] s.

(** ** Access control (pageSchema.methods.hasAccess) *)

(** [const roleHierarchy = { viewer: 1, editor: 2, admin: 3 }] *)
Definition roleHierarchy (r : Role) : Z :=
  match r with
  | viewer => 1
  | editor => 2
  | admin => 3
  end%Z.

(** [this.collaborators.find(collab => collab.user.toString() === userId.toString())] *)
Definition findCollaborator (p : Page) (userId : string) : option Collaborator :=
  List.find (fun collab => bool_decide (collab_user collab = userId)) (collaborators p).

Definition hasAccess (p : Page) (userId : string) (requiredRole : Role) : bool :=
  if bool_decide (owner p = userId) then true
  else match findCollaborator p userId with
       | None => false
       | Some collaborator =>
           (roleHierarchy requiredRole <=? roleHierarchy (collab_role collaborator))%Z
       end.

(** [hasAccess(userId)] with the default parameter [requiredRole = 'viewer']. *)
Definition hasAccessDefault (p : Page) (userId : string) : bool :=
  hasAccess p userId viewer.

(** ** The version log *)

(** [arr.slice(-n)]: the last [n] elements (all of them when there are fewer). *)
Definition slice_last {A} (n : nat) (l : list A) : list A :=
  drop (length l - n) l.

(** [page.history.push(e)] followed by
    [if (page.history.length > 10) page.history = page.history.slice(-10)]. *)
Definition pushHistory (e : HistoryEntry) (p : Page) : Page :=
  let h := history p ++ [e] in
  set_history (if bool_decide (10 < length h) then slice_last 10 h else h) p.

(** A value interpolated in a template literal; [None] is [undefined]. *)
Definition interpolate (o : option string) : string :=
  match o with
  | Some s => s
  | None => "undefined"
  end.

(** Truthiness of a possibly undefined string. *)
Definition truthy (o : option string) : bool :=
  match o with
  | Some s => bool_decide (s ≠ "")
  | None => false
  end.

(** [`${changeType} block${blockId ? ` ${blockId}` : ''}`] *)
Definition changeDescription (changeType blockId : option string) : string :=
  interpolate changeType +:+ " block" +:+
  (if truthy blockId then " " +:+ interpolate blockId else "").

(** Payload of the [update-blocks] event. *)
Record UpdateBlocksData := mkUpdateBlocksData {
  ub_pageId : string;
  ub_blocks : list Block;
  ub_changeType : option string;
  ub_blockId : option string
}.

(** The history entry [update-blocks] pushes: the page as it is before the
    write. *)
Definition blocksEntry (userId : string) (d : UpdateBlocksData) (now : Z)
    (p : Page) : HistoryEntry :=
  mkHistoryEntry (version p) (blocks p) now userId
    (changeDescription (ub_changeType d) (ub_blockId d)).

(** Lines 97-113 of socketHandlers.js: push, truncate, replace the blocks,
    [page.version += 1]. *)
Definition applyUpdateBlocks (userId : string) (d : UpdateBlocksData) (now : Z)
    (p : Page) : Page :=
  let p1 := pushHistory (blocksEntry userId d now p) p in
  let p2 := set_blocks (ub_blocks d) p1 in
  set_version (version p2 + 1) p2.

(** *** What assigning to a schema path does

    [title] is declared with [trim: true]: every assignment runs
    [String.prototype.trim] on the value. A string is read here as the
    UTF-8 encoding of the JavaScript string. *)

Definition utf8 (codes : list nat) : string :=
  fold_right (λ n rest, String (Ascii.ascii_of_nat n) rest) EmptyString codes.

(** The white space and line terminator code points [trim] strips, in UTF-8:
    U+0009 to U+000D, U+0020, U+00A0, U+1680, U+2000 to U+200A, U+2028,
    U+2029, U+202F, U+205F, U+3000 and U+FEFF. *)
Definition whiteSpaces : list string :=
  [utf8 [9]; utf8 [10]; utf8 [11]; utf8 [12]; utf8 [13]; utf8 [32];
   utf8 [194; 160]; utf8 [225; 154; 128];
   utf8 [226; 128; 128]; utf8 [226; 128; 129]; utf8 [226; 128; 130];
   utf8 [226; 128; 131]; utf8 [226; 128; 132]; utf8 [226; 128; 133];
   utf8 [226; 128; 134]; utf8 [226; 128; 135]; utf8 [226; 128; 136];
   utf8 [226; 128; 137]; utf8 [226; 128; 138];
   utf8 [226; 128; 168]; utf8 [226; 128; 169]; utf8 [226; 128; 175];
   utf8 [226; 129; 159]; utf8 [227; 128; 128]; utf8 [239; 187; 191]].

(** The rest of [s] after the prefix [pre], if [s] starts with it. *)
Fixpoint dropPrefix (pre s : string) : option string :=
  match pre, s with
  | EmptyString, _ => Some s
  | String a pre', String b s' =>
      if Ascii.eqb a b then dropPrefix pre' s' else None
  | String _ _, EmptyString => None
  end.

(** The rest of [s] after one leading character of [class], if it has one. *)
Fixpoint dropOne (class : list string) (s : string) : option string :=
  match class with
  | [] => None
  | w :: class' =>
      match dropPrefix w s with
      | Some rest => Some rest
      | None => dropOne class' s
      end
  end.

(** Drops leading characters of [class]; every step removes at least one
    byte, so [fuel] the length of the string is enough. *)
Fixpoint dropLeading (class : list string) (fuel : nat) (s : string) : string :=
  match fuel with
  | 0 => s
  | S fuel' =>
      match dropOne class s with
      | Some rest => dropLeading class fuel' rest
      | None => s
      end
  end.

(** [String.prototype.trim]: the leading white space goes, then the
    trailing one (read off the reversed string). *)
Definition trimSetter (t : string) : string :=
  let t1 := dropLeading whiteSpaces (String.length t) t in
  String.rev
    (dropLeading (String.rev <$> whiteSpaces) (String.length t1) (String.rev t1)).

(** [settings] is a nested path with six declared string keys; an object
    assigned to it keeps its declared keys only. *)
Definition settingsPaths : gset string :=
  {["theme"; "favicon"; "metaTitle"; "metaDescription"; "customCSS"; "customJS"]}.

Definition castSettings (s : gmap string string) : gmap string string :=
  filter (λ kv, kv.1 ∈ settingsPaths) s.

(** [page.settings = { ...page.settings, ...settings }]: the keys of the
    payload win in the merged object, and the assignment keeps the declared
    keys of it. History and version are not written. *)
Definition applyUpdateSettings (s : gmap string string) (p : Page) : Page :=
  set_settings (castSettings (s ∪ settings p)) p.

(** [page.title = title]: the title is stored trimmed. History and version
    are not written. *)
Definition applyUpdateTitle (t : string) (p : Page) : Page :=
  set_title (trimSetter t) p.

(** Payload of the [undo-redo] event; [None] is an absent key. *)
Record UndoRedoData := mkUndoRedoData {
  ur_pageId : string;
  ur_action : option string;
  ur_version : option Z
}.

(** The [let targetVersion; if ... else if ... else if ...] cascade;
    [None] is a [targetVersion] left [undefined]. *)
Definition targetVersion (p : Page) (d : UndoRedoData) : option Z :=
  if bool_decide (ur_action d = Some "undo") then Some (version p - 1)%Z
  else if bool_decide (ur_action d = Some "redo") then Some (version p + 1)%Z
  else ur_version d.

(** [page.history.find(h => h.version === targetVersion)]: the first entry,
    in array order, carrying that version. A stored version is a number and
    never [=== undefined]. *)
Definition findHistory (p : Page) (target : option Z) : option HistoryEntry :=
  match target with
  | Some t => List.find (fun h => bool_decide (h_version h = t)) (history p)
  | None => None
  end.

(** The body of [if (historyEntry) { ... }] up to the save: [None] when no
    entry is found and nothing is written. *)
Definition navigateHistory (p : Page) (d : UndoRedoData) : option Page :=
  match targetVersion p d, findHistory p (targetVersion p d) with
  | Some t, Some historyEntry =>
      Some (set_version t (set_blocks (h_blocks historyEntry) p))
  | _, _ => None
  end.

(** PUT /api/pages/:id/blocks, between the access check and the save. *)
Definition applyPutBlocks (userId : string) (newBlocks : list Block) (now : Z)
    (p : Page) : Page :=
  let p1 := pushHistory
              (mkHistoryEntry (version p) (blocks p) now userId "Blocks updated") p in
  let p2 := set_blocks newBlocks p1 in
  set_version (version p2 + 1) p2.

(** Body of PUT /api/pages/:id restricted to the keys of [updatePageSchema]
    that are fields of [Page] above and assigned as plain values. *)
Record PutPageBody := mkPutPageBody {
  pb_title : option string;
  pb_blocks : option (list Block)
}.

(** PUT /api/pages/:id: "Save to history if blocks are being updated", then
    [Object.assign(page, req.body)]. An array is truthy even when empty. *)
Definition applyPutPage (userId : string) (body : PutPageBody) (now : Z)
    (p : Page) : Page :=
  let p1 :=
    match pb_blocks body with
    | Some _ =>
        let q := pushHistory
                   (mkHistoryEntry (version p) (blocks p) now userId "Blocks updated") p in
        set_version (version q + 1) q
    | None => p
    end in
  let p2 :=
    match pb_title body with Some t => set_title (trimSetter t) p1 | None => p1 end in
  match pb_blocks body with Some b => set_blocks b p2 | None => p2 end.

(** The writes a page can receive once a request has passed its access
    check, by entry point. *)
Inductive Mutation :=
| MUpdateBlocks (userId : string) (d : UpdateBlocksData) (now : Z)
| MUpdateSettings (s : gmap string string)
| MUpdateTitle (t : string)
| MUndoRedo (d : UndoRedoData)
| MPutBlocks (userId : string) (newBlocks : list Block) (now : Z)
| MPutPage (userId : string) (body : PutPageBody) (now : Z).

Definition applyMutation (p : Page) (m : Mutation) : Page :=
  match m with
  | MUpdateBlocks u d now => applyUpdateBlocks u d now p
  | MUpdateSettings s => applyUpdateSettings s p
  | MUpdateTitle t => applyUpdateTitle t p
  | MUndoRedo d => default p (navigateHistory p d)
  | MPutBlocks u b now => applyPutBlocks u b now p
  | MPutPage u body now => applyPutPage u body now p
  end.

Definition applyMutations (ms : list Mutation) (p : Page) : Page :=
  foldl applyMutation p ms.

(** The entry a mutation pushes on the history, if it pushes one. *)
Definition pushedEntry (p : Page) (m : Mutation) : option HistoryEntry :=
  match m with
  | MUpdateBlocks u d now => Some (blocksEntry u d now p)
  | MPutBlocks u _ now =>
      Some (mkHistoryEntry (version p) (blocks p) now u "Blocks updated")
  | MPutPage u body now =>
      match pb_blocks body with
      | Some _ => Some (mkHistoryEntry (version p) (blocks p) now u "Blocks updated")
      | None => None
      end
  | MUpdateSettings _ | MUpdateTitle _ | MUndoRedo _ => None
  end.

(** ** Presence registry (the module-level [activeUsers] map) *)

(** [socket.user] as far as the handlers read it: [_id], [name], [avatar]. *)
Record User := mkUser {
  user_id : string;
  user_name : string;
  user_avatar : string
}.

(** A value of the inner map: [{ _id, name, avatar, joinedAt }]. *)
Record ActiveUser := mkActiveUser {
  au_id : string;
  au_name : string;
  au_avatar : string;
  au_joinedAt : Z
}.

Abbreviation Presence := (gmap string (gmap string ActiveUser)).

Definition addUserToPage (pageId userId : string) (u : User) (now : Z)
    (activeUsers : Presence) : Presence :=
  let activeUsers1 :=
    match activeUsers !! pageId with
    | Some _ => activeUsers
    | None => <[pageId := ∅]> activeUsers
    end in
  let pageUsers := default ∅ (activeUsers1 !! pageId) in
  <[pageId := <[userId := mkActiveUser (user_id u) (user_name u) (user_avatar u) now]> pageUsers]>
    activeUsers1.

Definition removeUserFromPage (pageId userId : string)
    (activeUsers : Presence) : Presence :=
  match activeUsers !! pageId with
  | Some pageUsers =>
      let pageUsers' := delete userId pageUsers in
      if bool_decide (size pageUsers' = 0) then delete pageId activeUsers
      else <[pageId := pageUsers']> activeUsers
  | None => activeUsers
  end.

Definition getActiveUsersForPage (pageId : string)
    (activeUsers : Presence) : list ActiveUser :=
  match activeUsers !! pageId with
  | Some pageUsers => (map_to_list pageUsers).*2
  | None => []
  end.

(** Whether [userId] is counted in the presence list of [pageId]. *)
Definition present (pageId userId : string) (activeUsers : Presence) : bool :=
  match activeUsers !! pageId with
  | Some pageUsers => bool_decide (is_Some (pageUsers !! userId))
  | None => false
  end.

(** ** Connections and emissions *)

(** The connection object: the two fields the authentication middleware
    sets, [currentPageId] (absent until the first successful join) and the
    broadcast rooms joined through [socket.join]. *)
Record Socket := mkSocket {
  socket_id : string;
  userId : string;
  user : User;
  currentPageId : option string;
  rooms : gset string
}.

Definition bind (cur : option string) (r : gset string) (s : Socket) : Socket :=
  mkSocket (socket_id s) (userId s) (user s) cur r.

(** The room named by [socket.currentPageId] when that field is truthy, as
    the guards [if (socket.currentPageId)] read it. *)
Definition boundRoom (s : Socket) : option string :=
  match currentPageId s with
  | Some cur => if truthy (Some cur) then Some cur else None
  | None => None
  end.

(** Outbound events with their payloads. *)
Inductive Payload :=
| ErrorEvent (message : string)
| ActiveUsers (users : list ActiveUser)
| UserJoined (uid : string) (u : User)
| UserLeft (uid : string) (u : User)
| BlocksUpdated (newBlocks : list Block) (v : Z) (updatedBy : User)
    (changeType blockId : option string) (timestamp : Z)
| UserCursor (uid : string) (u : User) (position : string) (blockId : option string)
| BlockSelected (uid : string) (u : User) (blockId : option string) (timestamp : Z)
| UserTyping (uid : string) (u : User) (blockId : option string) (isTyping : bool)
| PageSettingsUpdated (s : gmap string string) (updatedBy : User) (timestamp : Z)
| PageTitleUpdated (t : string) (updatedBy : User) (timestamp : Z)
| HistoryNavigated (newBlocks : list Block) (v : Z) (action : option string)
    (updatedBy : User) (timestamp : Z).

Definition eventName (p : Payload) : string :=
  match p with
  | ErrorEvent _ => "error"
  | ActiveUsers _ => "active-users"
  | UserJoined _ _ => "user-joined"
  | UserLeft _ _ => "user-left"
  | BlocksUpdated _ _ _ _ _ _ => "blocks-updated"
  | UserCursor _ _ _ _ => "user-cursor"
  | BlockSelected _ _ _ _ => "block-selected"
  | UserTyping _ _ _ _ => "user-typing"
  | PageSettingsUpdated _ _ _ => "page-settings-updated"
  | PageTitleUpdated _ _ _ => "page-title-updated"
  | HistoryNavigated _ _ _ _ _ => "history-navigated"
  end.

(** [socket.emit(...)] reaches the sender alone; [socket.to(room).emit(...)]
    reaches every connection in [room] except the sender. *)
Inductive Emission :=
| EmitSelf (payload : Payload)
| EmitRoom (room : string) (payload : Payload).

Definition isBroadcast (e : Emission) : bool :=
  match e with
  | EmitSelf _ => false
  | EmitRoom _ _ => true
  end.

Definition payloadOf (e : Emission) : Payload :=
  match e with
  | EmitSelf p => p
  | EmitRoom _ p => p
  end.

(** The connections among [peers] an emission of [sender] is delivered to. *)
Definition recipients (sender : Socket) (peers : list Socket) (e : Emission)
    : list string :=
  match e with
  | EmitSelf _ => [socket_id sender]
  | EmitRoom room _ =>
      socket_id <$>
        filter (fun s => socket_id s ≠ socket_id sender ∧ room ∈ rooms s) peers
  end.

(** Process-wide state: the stored pages and the presence registry. *)
Record Server := mkServer {
  pages : gmap string Page;
  activeUsers : Presence
}.

(** What one run of a handler leaves behind. *)
Record Outcome := mkOutcome {
  server : Server;
  socket : Socket;
  emitted : list Emission
}.

(** The remaining inbound payloads. *)
Record CursorData := mkCursorData {
  cd_position : string;
  cd_blockId : option string
}.

Record SettingsData := mkSettingsData {
  sd_pageId : string;
  sd_settings : gmap string string
}.

Record TitleData := mkTitleData {
  td_pageId : string;
  td_title : string
}.

(** ** The event handlers (socket/socketHandlers.js) *)

Section Handlers.

(** The document store, seen from the handlers. [castId] tells whether
    Mongoose can cast the identifier ([findById] rejects otherwise);
    [validates] tells whether [save()] accepts the document (it rejects
    otherwise, and nothing is stored). *)
Variable castId : string -> bool.
Variable validates : Page -> bool.

Inductive Found :=
| Rejected
| Missing
| Loaded (page : Page).

(** [await Page.findById(pageId)] *)
Definition findById (db : gmap string Page) (pageId : string) : Found :=
  if castId pageId then
    match db !! pageId with
    | Some page => Loaded page
    | None => Missing
    end
  else Rejected.

(** [await page.save()]: the store after the write, [None] on rejection. *)
Definition save (db : gmap string Page) (pageId : string) (page : Page)
    : option (gmap string Page) :=
  if validates page then Some (<[pageId := page]> db) else None.

(** A handler run that only answers the sender with an [error] event. *)
Definition fail (st : Server) (sock : Socket) (message : string) : Outcome :=
  mkOutcome st sock [EmitSelf (ErrorEvent message)].

(** A handler run that does nothing at all. *)
Definition skip (st : Server) (sock : Socket) : Outcome :=
  mkOutcome st sock [].

(** Shared tail of the four mutating handlers: save, then broadcast to the
    room named by the payload's [pageId]; a rejected save goes to [catch]. *)
Definition commit (st : Server) (sock : Socket) (pageId : string)
    (page : Page) (broadcast : Payload) (failure : string) : Outcome :=
  match save (pages st) pageId page with
  | Some db => mkOutcome (mkServer db (activeUsers st)) sock [EmitRoom pageId broadcast]
  | None => fail st sock failure
  end.

(** [socket.on('join-page', async (pageId) => ...)] *)
Definition join_page (now : Z) (pageId : string) (st : Server) (sock : Socket)
    : Outcome :=
  match findById (pages st) pageId with
  | Rejected => fail st sock "Failed to join page"
  | Missing => fail st sock "Page not found"
  | Loaded page =>
      if negb (hasAccessDefault page (userId sock)) then
        fail st sock "Access denied to this page"
      else
        (* Leave previous page room if any *)
        let '(rooms1, users1) :=
          match boundRoom sock with
          | Some cur =>
              (rooms sock ∖ {[cur]},
               removeUserFromPage cur (userId sock) (activeUsers st))
          | None => (rooms sock, activeUsers st)
          end in
        (* Join new page room *)
        let sock' := bind (Some pageId) (rooms1 ∪ {[pageId]}) sock in
        (* Add user to active users list *)
        let users2 := addUserToPage pageId (userId sock) (user sock) now users1 in
        mkOutcome (mkServer (pages st) users2) sock'
          [EmitRoom pageId (UserJoined (userId sock) (user sock));
           EmitSelf (ActiveUsers (getActiveUsersForPage pageId users2))]
  end.

(** [socket.on('update-blocks', async (data) => ...)]; [now] and [now']
    are the two clock readings, for the history entry and the broadcast. *)
Definition update_blocks (now now' : Z) (data : UpdateBlocksData)
    (st : Server) (sock : Socket) : Outcome :=
  match findById (pages st) (ub_pageId data) with
  | Rejected => fail st sock "Failed to update blocks"
  | Missing => fail st sock "Access denied"
  | Loaded page =>
      if negb (hasAccess page (userId sock) editor) then fail st sock "Access denied"
      else
        let page' := applyUpdateBlocks (userId sock) data now page in
        commit st sock (ub_pageId data) page'
          (BlocksUpdated (ub_blocks data) (version page') (user sock)
             (ub_changeType data) (ub_blockId data) now')
          "Failed to update blocks"
  end.

(** The four ephemeral handlers share one shape:
    [if (socket.currentPageId) socket.to(socket.currentPageId).emit(...)]. *)
Definition ephemeral (payload : Payload) (st : Server) (sock : Socket) : Outcome :=
  match boundRoom sock with
  | Some cur => mkOutcome st sock [EmitRoom cur payload]
  | None => skip st sock
  end.

Definition cursor_move (data : CursorData) (st : Server) (sock : Socket) : Outcome :=
  ephemeral (UserCursor (userId sock) (user sock) (cd_position data) (cd_blockId data))
    st sock.

Definition block_select (now : Z) (blockId : option string) (st : Server)
    (sock : Socket) : Outcome :=
  ephemeral (BlockSelected (userId sock) (user sock) blockId now) st sock.

Definition typing_start (blockId : option string) (st : Server) (sock : Socket)
    : Outcome :=
  ephemeral (UserTyping (userId sock) (user sock) blockId true) st sock.

Definition typing_stop (blockId : option string) (st : Server) (sock : Socket)
    : Outcome :=
  ephemeral (UserTyping (userId sock) (user sock) blockId false) st sock.

(** [socket.on('update-page-settings', async (data) => ...)] *)
Definition update_page_settings (now : Z) (data : SettingsData) (st : Server)
    (sock : Socket) : Outcome :=
  match findById (pages st) (sd_pageId data) with
  | Rejected => fail st sock "Failed to update page settings"
  | Missing => fail st sock "Access denied"
  | Loaded page =>
      if negb (hasAccess page (userId sock) editor) then fail st sock "Access denied"
      else
        let page' := applyUpdateSettings (sd_settings data) page in
        commit st sock (sd_pageId data) page'
          (PageSettingsUpdated (settings page') (user sock) now)
          "Failed to update page settings"
  end.

(** [socket.on('update-page-title', async (data) => ...)] *)
Definition update_page_title (now : Z) (data : TitleData) (st : Server)
    (sock : Socket) : Outcome :=
  match findById (pages st) (td_pageId data) with
  | Rejected => fail st sock "Failed to update page title"
  | Missing => fail st sock "Access denied"
  | Loaded page =>
      if negb (hasAccess page (userId sock) editor) then fail st sock "Access denied"
      else
        let page' := applyUpdateTitle (td_title data) page in
        commit st sock (td_pageId data) page'
          (PageTitleUpdated (title page') (user sock) now)
          "Failed to update page title"
  end.

(** [socket.on('undo-redo', async (data) => ...)] *)
Definition undo_redo (now : Z) (data : UndoRedoData) (st : Server)
    (sock : Socket) : Outcome :=
  match findById (pages st) (ur_pageId data) with
  | Rejected => fail st sock "Failed to perform undo/redo operation"
  | Missing => fail st sock "Access denied"
  | Loaded page =>
      if negb (hasAccess page (userId sock) editor) then fail st sock "Access denied"
      else
        match navigateHistory page data with
        | Some page' =>
            commit st sock (ur_pageId data) page'
              (HistoryNavigated (blocks page') (version page') (ur_action data)
                 (user sock) now)
              "Failed to perform undo/redo operation"
        | None => skip st sock
        end
  end.

(** [socket.on('disconnect', () => ...)] *)
Definition disconnect (st : Server) (sock : Socket) : Outcome :=
  match boundRoom sock with
  | Some cur =>
      mkOutcome
        (mkServer (pages st) (removeUserFromPage cur (userId sock) (activeUsers st)))
        sock
        [EmitRoom cur (UserLeft (userId sock) (user sock))]
  | None => skip st sock
  end.

(** Inbound events, with the clock readings their handler takes. *)
Inductive ClientEvent :=
| JoinPage (now : Z) (pageId : string)
| UpdateBlocks (now now' : Z) (data : UpdateBlocksData)
| CursorMove (data : CursorData)
| BlockSelect (now : Z) (blockId : option string)
| TypingStart (blockId : option string)
| TypingStop (blockId : option string)
| UpdatePageSettings (now : Z) (data : SettingsData)
| UpdatePageTitle (now : Z) (data : TitleData)
| UndoRedo (now : Z) (data : UndoRedoData)
| Disconnect.

(** The dispatch table of [io.on('connection', ...)]. *)
Definition handle (ev : ClientEvent) (st : Server) (sock : Socket) : Outcome :=
  match ev with
  | JoinPage now pageId => join_page now pageId st sock
  | UpdateBlocks now now' data => update_blocks now now' data st sock
  | CursorMove data => cursor_move data st sock
  | BlockSelect now blockId => block_select now blockId st sock
  | TypingStart blockId => typing_start blockId st sock
  | TypingStop blockId => typing_stop blockId st sock
  | UpdatePageSettings now data => update_page_settings now data st sock
  | UpdatePageTitle now data => update_page_title now data st sock
  | UndoRedo now data => undo_redo now data st sock
  | Disconnect => disconnect st sock
  end.

(** Events of one connection are handled in arrival order; the emissions
    accumulate. *)
Fixpoint run (evs : list ClientEvent) (st : Server) (sock : Socket) : Outcome :=
  match evs with
  | [] => mkOutcome st sock []
  | ev :: evs' =>
      let o := handle ev st sock in
      let o' := run evs' (server o) (socket o) in
      mkOutcome (server o') (socket o') (emitted o ++ emitted o')
  end.

End Handlers.

(** Whether an inbound event is one of the four ephemeral ones. *)
Definition isEphemeral (ev : ClientEvent) : bool :=
  match ev with
  | CursorMove _ | BlockSelect _ _ | TypingStart _ | TypingStop _ => true
  | _ => false
  end.

(** What "the mutation was logged" means for a page [p] rewritten into [p']:
    the history of [p'] is the history of [p] with one entry pushed (and the
    cap applied), that entry holds the version and the blocks of [p], and the
    version went up by one. *)
Definition logged (p p' : Page) : Prop :=
  ∃ e, history p' = history (pushHistory e p) ∧
       h_version e = version p ∧ h_blocks e = blocks p ∧
       version p' = (version p + 1)%Z.

(** ** A small deployment used in the examples

    A store that accepts every identifier and every document, three users,
    two pages. *)

Definition anyId : string -> bool := fun _ => true.
Definition anyPage : Page -> bool := fun _ => true.

Definition alice : User := mkUser "u1" "Alice" "a.png".
Definition bob : User := mkUser "u2" "Bob" "b.png".
Definition carol : User := mkUser "u3" "Carol" "c.png".

Definition textBlock (id : string) : Block :=
  mkBlock id "text" "{}" "{}" [] None 0.

(** Page [p1]: owned by Alice, Bob edits, Carol views. *)
Definition page1 : Page :=
  mkPage "Home" [] "u1"
    [mkCollaborator "u2" editor 0; mkCollaborator "u3" viewer 0] 1 [] ∅.

(** Page [p2]: owned by Alice, no collaborators. *)
Definition page2 : Page := newPage "About" "u1" ∅.

Definition server0 : Server :=
  mkServer (<["p1" := page1]> (<["p2" := page2]> ∅)) ∅.

(** Freshly authenticated connections: no room yet. *)
Definition aliceSocket : Socket := mkSocket "s1" "u1" alice None ∅.
Definition bobSocket : Socket := mkSocket "s2" "u2" bob None ∅.
Definition carolSocket : Socket := mkSocket "s3" "u3" carol None ∅.

Definition replaceBlocks (id : string) : UpdateBlocksData :=
  mkUpdateBlocksData "p1" [textBlock id] (Some "update") (Some id).

Definition undo : UndoRedoData := mkUndoRedoData "p1" (Some "undo") None.
Definition redo : UndoRedoData := mkUndoRedoData "p1" (Some "redo") None.

(** The page stored under [pageId] after a run, if any. *)
Definition pageAfter (o : Outcome) (pageId : string) : option Page :=
  pages (server o) !! pageId.

(** An editing session of Alice on [p1]: two edits, both undone, then a
    third edit. *)
Definition editSession : list ClientEvent :=
  [JoinPage 0 "p1";
   UpdateBlocks 1 1 (replaceBlocks "a");
   UpdateBlocks 2 2 (replaceBlocks "b");
   UndoRedo 3 undo;
   UndoRedo 4 undo;
   UpdateBlocks 5 5 (replaceBlocks "c")].

(** Bob, then Alice, join [p1]. *)
Definition bobInP1 : Outcome := join_page anyId 10 "p1" server0 bobSocket.
Definition aliceInP1 : Outcome :=
  join_page anyId 11 "p1" (server bobInP1) aliceSocket.

(** Twelve successive block replacements by Alice. *)
Definition twelveEdits : list Mutation :=
  (λ n, MUpdateBlocks "u1" (replaceBlocks "a") (Z.of_nat n)) <$> seq 1 12.

(** Bob's connection while it is bound to [p2]. *)
Definition bobInP2 : Socket := bind (Some "p2") {["p2"]} bobSocket.

Definition renameP1 : TitleData := mkTitleData "p1" "Start".

(** A title with white space around it, and settings with a key the schema
    does not declare. *)
Definition renamePadded : TitleData :=
  mkTitleData "p1" ("  Start Here " +:+ utf8 [9; 194; 160]).
Definition themeAndMore : SettingsData :=
  mkSettingsData "p1" (<["theme" := "dark"]> (<["foo" := "bar"]> ∅)).
Definition themeP1 : SettingsData := mkSettingsData "p1" {["theme" := "dark"]}.

(** Every stored page respects the history cap. *)
Definition capped (st : Server) : Prop :=
  ∀ pageId p, pages st !! pageId = Some p → length (history p) ≤ 10.

(** A connection is in at most one page room, the one [currentPageId] names. *)
Definition singleRoom (s : Socket) : Prop :=
  ∀ r, r ∈ rooms s → boundRoom s = Some r.

(** ** Collaborator management (models/Page.js) *)

Definition set_collaborators (c : list Collaborator) (p : Page) : Page :=
  mkPage (title p) (blocks p) (owner p) c (version p) (history p) (settings p).

(** [pageSchema.methods.addCollaborator(userId, role = 'editor')]: the
    document after the call. An entry is pushed only when [find] returns
    nothing; [now] is the [addedAt] default. *)
Definition addCollaborator (uid : string) (role : option Role) (now : Z)
    (p : Page) : Page :=
  match findCollaborator p uid with
  | None =>
      set_collaborators
        (collaborators p ++ [mkCollaborator uid (default editor role) now]) p
  | Some _ => p
  end.

(** [pageSchema.methods.removeCollaborator(userId)] *)
Definition removeCollaborator (uid : string) (p : Page) : Page :=
  set_collaborators (filter (λ collab, collab_user collab ≠ uid) (collaborators p)) p.

(** The virtuals [blocksCount] and [collaboratorsCount]. *)
Definition blocksCount (p : Page) : nat := length (blocks p).
Definition collaboratorsCount (p : Page) : nat := length (collaborators p).

(** ** The slug expression of the [pre('save')] hook (models/Page.js)

    A title is read here as its sequence of UTF-16 code units. The case
    mapping of the runtime is a parameter. *)

(** The class [[a-z0-9 -]] whose complement the first [replace] deletes. *)
Definition slugKeep (c : N) : bool :=
  ((97 <=? c) && (c <=? 122) || (48 <=? c) && (c <=? 57)
   || (c =? 32) || (c =? 45))%N.

(** The class [\s], which is also what [trim()] strips. *)
Definition isWhiteSpace (c : N) : bool :=
  ((9 <=? c) && (c <=? 13) || (c =? 32) || (c =? 160) || (c =? 5760)
   || (8192 <=? c) && (c <=? 8202) || (c =? 8232) || (c =? 8233)
   || (c =? 8239) || (c =? 8287) || (c =? 12288) || (c =? 65279))%N.

Definition isHyphen (c : N) : bool := (c =? 45)%N.

(** [s.replace(/X+/g, '-')] for a character class [X]: every maximal run of
    [X] becomes one hyphen, written when the run ends. *)
Fixpoint replaceRuns (inClass : N → bool) (s : list N) : list N :=
  match s with
  | [] => []
  | c :: rest =>
      if inClass c then
        match rest with
        | c' :: _ => if inClass c' then replaceRuns inClass rest
                     else 45%N :: replaceRuns inClass rest
        | [] => [45%N]
        end
      else c :: replaceRuns inClass rest
  end.

Fixpoint trimStart (s : list N) : list N :=
  match s with
  | c :: rest => if isWhiteSpace c then trimStart rest else s
  | [] => []
  end.

(** [s.trim('-')]: [trim] takes no argument, the hyphen is ignored. *)
Definition trim (s : list N) : list N :=
  reverse (trimStart (reverse (trimStart s))).

(** [this.title.toLowerCase().replace(/[^a-z0-9 -]/g, '')
       .replace(/\s+/g, '-').replace(/-+/g, '-').trim('-')] *)
Definition slugify (toLowerCase : list N → list N) (t : list N) : list N :=
  trim (replaceRuns isHyphen
          (replaceRuns isWhiteSpace (List.filter slugKeep (toLowerCase t)))).

(** The hook itself: the slug is rewritten only when the title was modified
    and the page is published. *)
Definition slugHook (toLowerCase : list N → list N) (titleModified isPublished : bool)
    (t : list N) (slug : option (list N)) : option (list N) :=
  if titleModified && isPublished then Some (slugify toLowerCase t) else slug.

(** ** Connection authentication ([io.use] in socketHandlers.js) *)

(** A stored user: what the handlers keep of it, and [isActive]. *)
Record Account := mkAccount {
  acc_user : User;
  acc_isActive : bool
}.

(** [User.findById(id)]: [None] when the call rejects (the id does not
    cast), otherwise the document or [null]. *)
Definition findUser (castId : string -> bool) (users : gmap string Account)
    (id : string) : option (option Account) :=
  if castId id then Some (users !! id) else None.

(** The middleware. [verify] is [jwt.verify(token, secret)] followed by the
    read of [decoded.id]: [None] when it throws. The result is the message
    of the error passed to [next], or the connection with [userId] and
    [user] set. *)
Definition authenticate (verify : string → option string)
    (castId : string -> bool) (users : gmap string Account)
    (sid : string) (token : option string) : string + Socket :=
  if negb (truthy token) then inl "Authentication error: No token provided"
  else
    match verify (interpolate token) with
    | None => inl "Authentication error: Invalid token"
    | Some id =>
        match findUser castId users id with
        | None => inl "Authentication error: Invalid token"
        | Some None => inl "Authentication error: Invalid user"
        | Some (Some account) =>
            if negb (acc_isActive account) then
              inl "Authentication error: Invalid user"
            else inr (mkSocket sid (user_id (acc_user account)) (acc_user account) None ∅)
        end
    end.

(** ** The REST routes that write pages (routes/pages.js)

    Each route is modelled from the point where the [auth] and
    [validateRequest] middlewares have run: [requester] is
    [req.user._id]. The result is the response and the store. *)

Record Response := mkResponse {
  res_status : nat;
  res_success : bool;
  res_message : string;
  res_page : option Page
}.

Definition reply (code : nat) (msg : string) : Response :=
  mkResponse code false msg None.

Section Routes.

Variable castId : string -> bool.
Variable validates : Page -> bool.

(** PUT /api/pages/:id/blocks *)
Definition put_blocks (now : Z) (requester pageId : string)
    (newBlocks : list Block) (db : gmap string Page)
    : Response * gmap string Page :=
  match findById castId db pageId with
  | Rejected => (reply 500 "Server error during blocks update", db)
  | Missing => (reply 404 "Page not found", db)
  | Loaded page =>
      if negb (hasAccess page requester editor) then (reply 403 "Access denied", db)
      else
        let page' := applyPutBlocks requester newBlocks now page in
        match save validates db pageId page' with
        | Some db' =>
            (mkResponse 200 true "Blocks updated successfully" (Some page'), db')
        | None => (reply 500 "Server error during blocks update", db)
        end
  end.

(** PUT /api/pages/:id *)
Definition put_page (now : Z) (requester pageId : string)
    (body : PutPageBody) (db : gmap string Page)
    : Response * gmap string Page :=
  match findById castId db pageId with
  | Rejected => (reply 500 "Server error during page update", db)
  | Missing => (reply 404 "Page not found", db)
  | Loaded page =>
      if negb (hasAccess page requester editor) then (reply 403 "Access denied", db)
      else
        let page' := applyPutPage requester body now page in
        match save validates db pageId page' with
        | Some db' =>
            (mkResponse 200 true "Page updated successfully" (Some page'), db')
        | None => (reply 500 "Server error during page update", db)
        end
  end.

(** POST /api/pages/:id/collaborators. [addCollaborator] saves only when
    it pushed an entry. *)
Definition post_collaborator (now : Z) (requester pageId : string)
    (uid : string) (role : option Role) (users : gmap string Account)
    (db : gmap string Page) : Response * gmap string Page :=
  match findById castId db pageId with
  | Rejected => (reply 500 "Server error during collaborator addition", db)
  | Missing => (reply 404 "Page not found", db)
  | Loaded page =>
      if negb (hasAccess page requester admin) then (reply 403 "Access denied", db)
      else
        match findUser castId users uid with
        | None => (reply 500 "Server error during collaborator addition", db)
        | Some None => (reply 404 "User not found", db)
        | Some (Some _) =>
            let page' := addCollaborator uid role now page in
            match findCollaborator page uid with
            | Some _ =>
                (mkResponse 200 true "Collaborator added successfully" (Some page'), db)
            | None =>
                match save validates db pageId page' with
                | Some db' =>
                    (mkResponse 200 true "Collaborator added successfully" (Some page'),
                     db')
                | None => (reply 500 "Server error during collaborator addition", db)
                end
            end
        end
  end.

(** DELETE /api/pages/:id/collaborators/:userId *)
Definition delete_collaborator (requester pageId uid : string)
    (db : gmap string Page) : Response * gmap string Page :=
  match findById castId db pageId with
  | Rejected => (reply 500 "Server error during collaborator removal", db)
  | Missing => (reply 404 "Page not found", db)
  | Loaded page =>
      if negb (hasAccess page requester admin) then (reply 403 "Access denied", db)
      else
        let page' := removeCollaborator uid page in
        match save validates db pageId page' with
        | Some db' =>
            (mkResponse 200 true "Collaborator removed successfully" (Some page'), db')
        | None => (reply 500 "Server error during collaborator removal", db)
        end
  end.

(** DELETE /api/pages/:id: "only owner can delete". *)
Definition delete_page (requester pageId : string) (db : gmap string Page)
    : Response * gmap string Page :=
  match findById castId db pageId with
  | Rejected => (reply 500 "Server error during page deletion", db)
  | Missing => (reply 404 "Page not found", db)
  | Loaded page =>
      if negb (bool_decide (owner page = requester)) then
        (reply 403 "Access denied", db)
      else (mkResponse 200 true "Page deleted successfully" None, delete pageId db)
  end.

(** The write requests, for stating what holds of all of them. *)
Inductive RestRequest :=
| PutBlocks (now : Z) (pageId : string) (newBlocks : list Block)
| PutPage (now : Z) (pageId : string) (body : PutPageBody)
| PostCollaborator (now : Z) (pageId uid : string) (role : option Role)
| DeleteCollaborator (pageId uid : string)
| DeletePage (pageId : string).

Definition route (users : gmap string Account) (requester : string)
    (r : RestRequest) (db : gmap string Page) : Response * gmap string Page :=
  match r with
  | PutBlocks now pageId b => put_blocks now requester pageId b db
  | PutPage now pageId body => put_page now requester pageId body db
  | PostCollaborator now pageId uid role =>
      post_collaborator now requester pageId uid role users db
  | DeleteCollaborator pageId uid => delete_collaborator requester pageId uid db
  | DeletePage pageId => delete_page requester pageId db
  end.

End Routes.

(** [validateRequest(schema)] of middleware/validation.js. The Joi schema is
    a parameter: it gives [error.details[0].message] when it refuses the
    body. A refused body is answered 400 and the route is not entered. *)
Definition validateRequest {B : Type} (schema : B → option string)
    (next : B → gmap string Page → Response * gmap string Page)
    (body : B) (db : gmap string Page) : Response * gmap string Page :=
  match schema body with
  | Some message => (reply 400 message, db)
  | None => next body db
  end.

(** The two PUT routes with their validation in front:
    [validateRequest(updatePageSchema)] and
    [validateRequest(updateBlocksSchema)]. *)
Definition put_page_route (updatePageSchema : PutPageBody → option string)
    (castId : string -> bool) (validates : Page -> bool) (now : Z)
    (requester pageId : string) : PutPageBody → gmap string Page →
    Response * gmap string Page :=
  validateRequest updatePageSchema (put_page castId validates now requester pageId).

Definition put_blocks_route (updateBlocksSchema : list Block → option string)
    (castId : string -> bool) (validates : Page -> bool) (now : Z)
    (requester pageId : string) : list Block → gmap string Page →
    Response * gmap string Page :=
  validateRequest updateBlocksSchema (put_blocks castId validates now requester pageId).

(** The page a request addresses. *)
Definition requestPage (r : RestRequest) : string :=
  match r with
  | PutBlocks _ pageId _ | PutPage _ pageId _ | PostCollaborator _ pageId _ _
  | DeleteCollaborator pageId _ | DeletePage pageId => pageId
  end.

(** The right each route asks of the requester on the page it loaded. *)
Definition authorised (r : RestRequest) (page : Page) (requester : string) : bool :=
  match r with
  | PutBlocks _ _ _ | PutPage _ _ _ => hasAccess page requester editor
  | PostCollaborator _ _ _ _ | DeleteCollaborator _ _ => hasAccess page requester admin
  | DeletePage _ => bool_decide (owner page = requester)
  end.

(** ** Invariants used below *)

(** No page of the registry has an empty user map. *)
Definition tidy (registry : Presence) : Prop :=
  ∀ pageId pageUsers, registry !! pageId = Some pageUsers → pageUsers ≠ ∅.

(** The number of users counted on a page. *)
Definition headCount (pageId : string) (registry : Presence) : nat :=
  length (getActiveUsersForPage pageId registry).

(** The mutations that replace the blocks, whatever the page. *)
Definition pushes (m : Mutation) : bool :=
  match m with
  | MUpdateBlocks _ _ _ | MPutBlocks _ _ _ => true
  | MPutPage _ body _ => bool_decide (is_Some (pb_blocks body))
  | MUpdateSettings _ | MUpdateTitle _ | MUndoRedo _ => false
  end.

(** Versions start at 1 and no snapshot is older than that. *)
Definition versionsPositive (p : Page) : Prop :=
  (1 ≤ version p)%Z ∧ Forall (λ h, (1 ≤ h_version h)%Z) (history p).

(** No user is listed twice among the collaborators. *)
Definition distinctCollaborators (p : Page) : Prop :=
  NoDup (collab_user <$> collaborators p).

(** Two adjacent hyphens occur in a string. *)
Fixpoint doubleHyphen (s : list N) : bool :=
  match s with
  | c :: (c' :: _) as rest => isHyphen c && isHyphen c' || doubleHyphen rest
  | _ => false
  end.

(** The alphabet of a slug: [a-z], [0-9] and the hyphen. *)
Definition slugChar (c : N) : bool :=
  ((97 <=? c) && (c <=? 122) || (48 <=? c) && (c <=? 57) || (c =? 45))%N.

(** ** More of the deployment *)

(** Page [p3]: owned by Alice, Bob is an admin collaborator. *)
Definition page3 : Page :=
  mkPage "Team" [] "u1" [mkCollaborator "u2" admin 0] 1 [] ∅.

Definition store3 : gmap string Page := {["p3" := page3]}.

(** A page two edits old that has been undone once. *)
Definition pageUndone : Page :=
  mkPage "Home" [textBlock "a"] "u1" [] 2
    [mkHistoryEntry 1 [] 1 "u1" "update block a";
     mkHistoryEntry 2 [textBlock "a"] 2 "u1" "update block b"] ∅.

(** The stored users: Carol's account is deactivated. *)
Definition accounts : gmap string Account :=
  <["u1" := mkAccount alice true]>
    (<["u2" := mkAccount bob true]> (<["u3" := mkAccount carol false]> ∅)).

(** A token check that knows two tokens. *)
Definition tokenOf (t : string) : option string :=
  if bool_decide (t = "token-alice") then Some "u1"
  else if bool_decide (t = "token-carol") then Some "u3"
  else None.

(** A schema that accepts every body, and one that refuses every block
    list. *)
Definition acceptAll {B : Type} (body : B) : option string := None.
Definition refuseBlocks (b : list Block) : option string :=
  Some "blocks[0].content is required".

(** A cast that refuses the empty identifier only. *)
Definition nonEmptyId (id : string) : bool := bool_decide (id ≠ "").

(** A second connection of Alice, and a connection of a user unknown to
    every page. *)
Definition aliceSecondSocket : Socket := mkSocket "s5" "u1" alice None ∅.
Definition daveSocket : Socket :=
  mkSocket "s4" "u9" (mkUser "u9" "Dave" "d.png") None ∅.

(** What Carol, a viewer of [p1], may try. *)
Definition carolAttempts : list ClientEvent :=
  [JoinPage 0 "p1";
   UpdateBlocks 1 1 (replaceBlocks "x");
   UpdatePageTitle 2 renameP1;
   UpdatePageSettings 3 themeP1;
   UndoRedo 4 undo;
   JoinPage 5 "p2";
   Disconnect].

(** * Properties *)

(** ** Access control *)

Lemma findCollaborator_None (p : Page) (uid : string) :
  findCollaborator p uid = None ↔
  ∀ c, c ∈ collaborators p → collab_user c ≠ uid.
Proof.
  unfold findCollaborator. induction (collaborators p) as [|c l IH]; simpl.
  - split; [intros _ c Hc; inversion Hc | done].
  - case_bool_decide as Hu.
    + split; [done | intros H; exfalso; apply (H c); [left | done]].
    + rewrite IH. split.
      * intros H c' Hc'. apply elem_of_cons in Hc' as [-> | Hc']; auto.
      * intros H c' Hc'. apply H. by right.
Qed.

Lemma findCollaborator_Some (p : Page) (uid : string) (c : Collaborator) :
  findCollaborator p uid = Some c → c ∈ collaborators p ∧ collab_user c = uid.
Proof.
  unfold findCollaborator. intros H. apply find_some in H as [Hin Hb].
  apply bool_decide_eq_true in Hb. split; [by apply list_elem_of_In | done].
Qed.

(** C6. [hasAccess(userId, requiredRole)] is true for the owner whatever the
    collaborator list holds; false for a user who is neither the owner nor
    listed as a collaborator; and for a listed non-owner it is true exactly
    when the rank of the entry found is at least the required rank, with
    ranks viewer = 1, editor = 2, admin = 3. The method is a function of the
    page and its arguments alone: it writes nothing. *)
Theorem hasAccess_spec (p : Page) (uid : string) (requiredRole : Role) :
  (owner p = uid → hasAccess p uid requiredRole = true) ∧
  (owner p ≠ uid → (∀ c, c ∈ collaborators p → collab_user c ≠ uid) →
   hasAccess p uid requiredRole = false) ∧
  (∀ c, owner p ≠ uid → findCollaborator p uid = Some c →
     (hasAccess p uid requiredRole = true ↔
      (roleHierarchy (collab_role c) >= roleHierarchy requiredRole)%Z)) ∧
  (roleHierarchy viewer = 1 ∧ roleHierarchy editor = 2 ∧ roleHierarchy admin = 3)%Z.
Proof.
  unfold hasAccess. repeat split.
  - intros Ho. by rewrite bool_decide_eq_true_2.
  - intros Ho Hnone. rewrite bool_decide_eq_false_2 by done.
    apply findCollaborator_None in Hnone. by rewrite Hnone.
  - rewrite bool_decide_eq_false_2 by done. rewrite H0.
    intros Hle. apply Z.leb_le in Hle. lia.
  - rewrite bool_decide_eq_false_2 by done. rewrite H0.
    intros Hge. apply Z.leb_le. lia.
Qed.

(** The owner passes even the strictest check. *)
Lemma hasAccess_owner_admin (p : Page) : hasAccess p (owner p) admin = true.
Proof. unfold hasAccess. by rewrite bool_decide_eq_true_2. Qed.

(** A viewer entry does not grant editor access. *)
Lemma hasAccess_viewer_editor (p : Page) (uid : string) (c : Collaborator) :
  owner p ≠ uid → findCollaborator p uid = Some c → collab_role c = viewer →
  hasAccess p uid editor = false.
Proof.
  intros Ho Hc Hr. unfold hasAccess.
  rewrite bool_decide_eq_false_2 by done. by rewrite Hc, Hr.
Qed.

(** ** The history cap *)

Lemma pushHistory_length (e : HistoryEntry) (p : Page) :
  length (history (pushHistory e p)) = (length (history p) + 1) `min` 10.
Proof.
  unfold pushHistory, slice_last. simpl.
  case_bool_decide as Hlen; rewrite length_app in Hlen; simpl in Hlen;
    rewrite ?length_drop, ?length_app; simpl; lia.
Qed.

Lemma pushHistory_drop (e : HistoryEntry) (p : Page) :
  history (pushHistory e p) =
  drop (length (history p) + 1 - 10) (history p ++ [e]).
Proof.
  unfold pushHistory, slice_last. simpl.
  case_bool_decide as Hlen; rewrite length_app in *; simpl in *; [done |].
  replace (length (history p) + 1 - 10) with 0 by lia. done.
Qed.

Lemma pushHistory_last (e : HistoryEntry) (p : Page) :
  last (history (pushHistory e p)) = Some e.
Proof.
  rewrite pushHistory_drop, drop_app_le by lia. apply last_snoc.
Qed.

(** The entries a push evicts are a prefix of the log: the oldest ones. *)
Lemma pushHistory_evicts (e : HistoryEntry) (p : Page) :
  history p ++ [e] =
  take (length (history p) + 1 - 10) (history p ++ [e]) ++ history (pushHistory e p).
Proof. rewrite pushHistory_drop. by rewrite take_drop. Qed.

Lemma navigateHistory_history (p p' : Page) (d : UndoRedoData) :
  navigateHistory p d = Some p' → history p' = history p.
Proof.
  unfold navigateHistory. intros H.
  destruct (targetVersion p d); [| done].
  destruct (findHistory p _); [| done]. by inversion H.
Qed.

(** Which mutations push an entry, and what the log looks like afterwards. *)
Lemma applyMutation_history (p : Page) (m : Mutation) :
  history (applyMutation p m) =
  match pushedEntry p m with
  | Some e => history (pushHistory e p)
  | None => history p
  end.
Proof.
  destruct m as [u d now | s | t | d | u b now | u body now]; simpl; try done.
  - destruct (navigateHistory p d) as [p' |] eqn:Hnav; simpl; [| done].
    by apply navigateHistory_history in Hnav.
  - unfold applyPutPage. by destruct (pb_blocks body), (pb_title body).
Qed.

Lemma applyMutation_capped (p : Page) (m : Mutation) :
  length (history p) ≤ 10 → length (history (applyMutation p m)) ≤ 10.
Proof.
  intros Hp. rewrite applyMutation_history.
  destruct (pushedEntry p m); [rewrite pushHistory_length |]; lia.
Qed.

Lemma applyMutations_capped (ms : list Mutation) (p : Page) :
  length (history p) ≤ 10 → length (history (applyMutations ms p)) ≤ 10.
Proof.
  unfold applyMutations. revert p.
  induction ms as [| m ms IH]; intros p Hp; simpl; [done |].
  apply IH. by apply applyMutation_capped.
Qed.

(** C2. The history of a page holds at most 10 entries after any finite
    sequence of accepted mutations: the cap is preserved from any page that
    respects it, and a page as POST /api/pages creates it starts with an
    empty history. When a mutation pushes an entry, the new history is the
    old one with the entry appended minus a prefix, so the entries evicted
    are the oldest, and none is evicted unless the append exceeds 10. *)
Theorem history_capped_fifo (p : Page) (ms : list Mutation) :
  (length (history p) ≤ 10 → length (history (applyMutations ms p)) ≤ 10) ∧
  (∀ t o s, length (history (applyMutations ms (newPage t o s))) ≤ 10) ∧
  (∀ m e, pushedEntry p m = Some e →
     ∃ evicted,
       history p ++ [e] = evicted ++ history (applyMutation p m) ∧
       length evicted = length (history p) + 1 - 10 ∧
       length (history (applyMutation p m)) ≤ 10) ∧
  (∀ m, pushedEntry p m = None → history (applyMutation p m) = history p).
Proof.
  split; [apply applyMutations_capped |].
  split; [intros t o s; apply applyMutations_capped; simpl; lia |].
  split.
  - intros m e He.
    exists (take (length (history p) + 1 - 10) (history p ++ [e])).
    rewrite applyMutation_history, He.
    split; [apply pushHistory_evicts |].
    split; [| rewrite pushHistory_length; lia].
    rewrite length_take, length_app. simpl. lia.
  - intros m Hm. by rewrite applyMutation_history, Hm.
Qed.

(** ** The schema setters *)

Lemma castSettings_lookup (s : gmap string string) (k : string) :
  castSettings s !! k = if decide (k ∈ settingsPaths) then s !! k else None.
Proof.
  unfold castSettings. rewrite map_lookup_filter.
  destruct (s !! k) as [v |]; simpl.
  - destruct (decide (k ∈ settingsPaths)) as [Hin | Hout].
    + by rewrite option_guard_True.
    + by rewrite option_guard_False.
  - by destruct (decide (k ∈ settingsPaths)).
Qed.

(** White space goes at both ends only; U+2003 and U+FEFF count. *)
Lemma trimSetter_samples :
  trimSetter "" = "" ∧ trimSetter "   " = "" ∧
  trimSetter " a  b " = "a  b" ∧ trimSetter "Home" = "Home" ∧
  trimSetter (utf8 [226; 128; 131; 120; 239; 187; 191; 10]) = "x".
Proof. by vm_compute. Qed.

(** ** The handlers, case by case *)

Lemma findById_Loaded (castId : string -> bool) (db : gmap string Page)
    (pageId : string) (page : Page) :
  findById castId db pageId = Loaded page ↔
  castId pageId = true ∧ db !! pageId = Some page.
Proof.
  unfold findById. destruct (castId pageId), (db !! pageId); intuition congruence.
Qed.

Section HandlerFacts.

Variable castId : string -> bool.
Variable validates : Page -> bool.

Lemma commit_saved (st : Server) (sock : Socket) (pageId : string) (page : Page)
    (broadcast : Payload) (failure : string) :
  validates page = true →
  commit validates st sock pageId page broadcast failure =
  mkOutcome (mkServer (<[pageId := page]> (pages st)) (activeUsers st)) sock
    [EmitRoom pageId broadcast].
Proof. intros Hv. unfold commit, save. by rewrite Hv. Qed.

(** An accepted [update-blocks]: the page is found, the sender passes the
    editor check and the save goes through. *)
Lemma update_blocks_accepted (now now' : Z) (data : UpdateBlocksData)
    (st : Server) (sock : Socket) (page : Page) :
  let page' := applyUpdateBlocks (userId sock) data now page in
  findById castId (pages st) (ub_pageId data) = Loaded page →
  hasAccess page (userId sock) editor = true →
  validates page' = true →
  update_blocks castId validates now now' data st sock =
  mkOutcome (mkServer (<[ub_pageId data := page']> (pages st)) (activeUsers st)) sock
    [EmitRoom (ub_pageId data)
       (BlocksUpdated (ub_blocks data) (version page + 1) (user sock)
          (ub_changeType data) (ub_blockId data) now')].
Proof.
  intros page' Hf Ha Hv. unfold update_blocks. rewrite Hf, Ha. simpl.
  by rewrite commit_saved.
Qed.

Lemma update_page_settings_accepted (now : Z) (data : SettingsData)
    (st : Server) (sock : Socket) (page : Page) :
  let page' := applyUpdateSettings (sd_settings data) page in
  findById castId (pages st) (sd_pageId data) = Loaded page →
  hasAccess page (userId sock) editor = true →
  validates page' = true →
  update_page_settings castId validates now data st sock =
  mkOutcome (mkServer (<[sd_pageId data := page']> (pages st)) (activeUsers st)) sock
    [EmitRoom (sd_pageId data)
       (PageSettingsUpdated (castSettings (sd_settings data ∪ settings page))
          (user sock) now)].
Proof.
  intros page' Hf Ha Hv. unfold update_page_settings. rewrite Hf, Ha. simpl.
  by rewrite commit_saved.
Qed.

Lemma update_page_title_accepted (now : Z) (data : TitleData)
    (st : Server) (sock : Socket) (page : Page) :
  let page' := applyUpdateTitle (td_title data) page in
  findById castId (pages st) (td_pageId data) = Loaded page →
  hasAccess page (userId sock) editor = true →
  validates page' = true →
  update_page_title castId validates now data st sock =
  mkOutcome (mkServer (<[td_pageId data := page']> (pages st)) (activeUsers st)) sock
    [EmitRoom (td_pageId data)
       (PageTitleUpdated (trimSetter (td_title data)) (user sock) now)].
Proof.
  intros page' Hf Ha Hv. unfold update_page_title. rewrite Hf, Ha. simpl.
  by rewrite commit_saved.
Qed.

Lemma undo_redo_found (now : Z) (data : UndoRedoData)
    (st : Server) (sock : Socket) (page page' : Page) :
  findById castId (pages st) (ur_pageId data) = Loaded page →
  hasAccess page (userId sock) editor = true →
  navigateHistory page data = Some page' →
  validates page' = true →
  undo_redo castId validates now data st sock =
  mkOutcome (mkServer (<[ur_pageId data := page']> (pages st)) (activeUsers st)) sock
    [EmitRoom (ur_pageId data)
       (HistoryNavigated (blocks page') (version page') (ur_action data)
          (user sock) now)].
Proof.
  intros Hf Ha Hn Hv. unfold undo_redo. rewrite Hf, Ha, Hn. simpl.
  by rewrite commit_saved.
Qed.

Lemma undo_redo_not_found (now : Z) (data : UndoRedoData)
    (st : Server) (sock : Socket) (page : Page) :
  findById castId (pages st) (ur_pageId data) = Loaded page →
  hasAccess page (userId sock) editor = true →
  navigateHistory page data = None →
  undo_redo castId validates now data st sock = mkOutcome st sock [].
Proof. intros Hf Ha Hn. unfold undo_redo. by rewrite Hf, Ha, Hn. Qed.

End HandlerFacts.

Lemma navigateHistory_None (p : Page) (d : UndoRedoData) :
  findHistory p (targetVersion p d) = None → navigateHistory p d = None.
Proof.
  unfold navigateHistory. intros ->. by destruct (targetVersion p d).
Qed.

Section HandlerProperties.

Variable castId : string -> bool.
Variable validates : Page -> bool.

(** C1 (as amended). An accepted [update-blocks] pushes one history entry
    holding the version and the blocks of the page before the write, with
    the description built from [changeType] and [blockId], and raises the
    version by exactly 1. An accepted [update-page-settings] stores the
    declared keys of the merged settings and an accepted
    [update-page-title] stores the trimmed title; neither pushes a history
    entry nor changes the version. *)
Theorem accepted_mutations_logging (now now' : Z) (st : Server) (sock : Socket)
    (page : Page) :
  hasAccess page (userId sock) editor = true →
  (∀ data,
     let page' := applyUpdateBlocks (userId sock) data now page in
     findById castId (pages st) (ub_pageId data) = Loaded page →
     validates page' = true →
     pageAfter (update_blocks castId validates now now' data st sock) (ub_pageId data)
       = Some page' ∧
     last (history page') =
       Some (mkHistoryEntry (version page) (blocks page) now (userId sock)
               (changeDescription (ub_changeType data) (ub_blockId data))) ∧
     logged page page' ∧
     version page' = (version page + 1)%Z ∧ blocks page' = ub_blocks data) ∧
  (∀ data,
     let page' := applyUpdateSettings (sd_settings data) page in
     findById castId (pages st) (sd_pageId data) = Loaded page →
     validates page' = true →
     pageAfter (update_page_settings castId validates now data st sock) (sd_pageId data)
       = Some page' ∧
     settings page' = castSettings (sd_settings data ∪ settings page) ∧
     history page' = history page ∧ version page' = version page) ∧
  (∀ data,
     let page' := applyUpdateTitle (td_title data) page in
     findById castId (pages st) (td_pageId data) = Loaded page →
     validates page' = true →
     pageAfter (update_page_title castId validates now data st sock) (td_pageId data)
       = Some page' ∧
     title page' = trimSetter (td_title data) ∧
     history page' = history page ∧ version page' = version page).
Proof.
  intros Ha. repeat apply conj.
  - intros data page' Hf Hv.
    rewrite (update_blocks_accepted castId validates now now' data st sock page Hf Ha Hv).
    unfold pageAfter. simpl. rewrite lookup_insert_eq.
    split; [done |]. split; [apply pushHistory_last |].
    split; [| done].
    exists (blocksEntry (userId sock) data now page). done.
  - intros data page' Hf Hv.
    rewrite (update_page_settings_accepted castId validates now data st sock page Hf Ha Hv).
    unfold pageAfter. simpl. by rewrite lookup_insert_eq.
  - intros data page' Hf Hv.
    rewrite (update_page_title_accepted castId validates now data st sock page Hf Ha Hv).
    unfold pageAfter. simpl. by rewrite lookup_insert_eq.
Qed.

(** C7. When the page is found and the sender passes the editor check but no
    history entry carries the target version, [undo-redo] does nothing: the
    store (hence the page's blocks and version), the registry and the
    connection are unchanged and nothing is emitted, neither an [error] to
    the sender nor a broadcast. *)
Theorem undo_redo_missing_target_silent (now : Z) (data : UndoRedoData)
    (st : Server) (sock : Socket) (page : Page) :
  findById castId (pages st) (ur_pageId data) = Loaded page →
  hasAccess page (userId sock) editor = true →
  findHistory page (targetVersion page data) = None →
  let o := undo_redo castId validates now data st sock in
  server o = st ∧ socket o = sock ∧ emitted o = [] ∧
  pageAfter o (ur_pageId data) = Some page.
Proof.
  intros Hf Ha Hnone o. subst o.
  rewrite (undo_redo_not_found castId validates now data st sock page Hf Ha
             (navigateHistory_None page data Hnone)).
  simpl. repeat split. unfold pageAfter. simpl.
  by apply (findById_Loaded castId) in Hf as [_ Hf].
Qed.

(** C8. An [update-blocks] sent by a user who is not the owner and whose
    collaborator entry has role viewer is rejected by the access check: the
    store is unchanged (the page keeps its blocks, version and history),
    nothing is broadcast, and the one emission is an [error] event that
    reaches the sending connection alone. *)
Theorem viewer_update_blocks_rejected (now now' : Z) (data : UpdateBlocksData)
    (st : Server) (sock : Socket) (page : Page) (c : Collaborator) :
  findById castId (pages st) (ub_pageId data) = Loaded page →
  owner page ≠ userId sock →
  findCollaborator page (userId sock) = Some c →
  collab_role c = viewer →
  let o := update_blocks castId validates now now' data st sock in
  server o = st ∧ socket o = sock ∧
  pageAfter o (ub_pageId data) = Some page ∧
  emitted o = [EmitSelf (ErrorEvent "Access denied")] ∧
  Forall (λ e, isBroadcast e = false) (emitted o) ∧
  (∀ peers e, e ∈ emitted o → recipients sock peers e = [socket_id sock]).
Proof.
  intros Hf Ho Hc Hr o. subst o. unfold update_blocks.
  rewrite Hf, (hasAccess_viewer_editor page (userId sock) c Ho Hc Hr). simpl.
  apply (findById_Loaded castId) in Hf as [_ Hf].
  do 4 (split; [done |]). split.
  - by repeat constructor.
  - intros peers e He. apply list_elem_of_singleton in He. by subst e.
Qed.

(** C10. A cursor-move, block-select, typing-start or typing-stop event from
    a connection that has no current page is dropped: nothing is emitted
    (no broadcast, no [error] to the sender) and neither the server state
    nor the connection changes. *)
Theorem ephemeral_unbound_dropped (ev : ClientEvent) (st : Server) (sock : Socket) :
  isEphemeral ev = true →
  currentPageId sock = None →
  handle castId validates ev st sock = mkOutcome st sock [].
Proof.
  intros He Hu.
  destruct ev; try discriminate He; simpl;
    unfold cursor_move, block_select, typing_start, typing_stop, ephemeral, boundRoom;
    by rewrite Hu.
Qed.

(** C9 (as amended). None of the four mutating handlers reads the
    connection's room binding. Whatever [currentPageId] and the joined rooms
    are, an [update-blocks], [update-page-settings] or [update-page-title]
    carrying the id of a page the sender may edit writes that page (the new
    blocks, the declared keys of the merged settings, the trimmed title)
    and broadcasts what it stored to that page's room; [undo-redo] does so
    when a history entry carries the target version, and otherwise does
    nothing. *)
Theorem mutating_handlers_ignore_binding (now now' : Z) (st : Server)
    (sock : Socket) (cur : option string) (joined : gset string) (page : Page) :
  hasAccess page (userId sock) editor = true →
  let conn := bind cur joined sock in
  let stored pageId page' := mkServer (<[pageId := page']> (pages st)) (activeUsers st) in
  (∀ data,
     let page' := applyUpdateBlocks (userId sock) data now page in
     findById castId (pages st) (ub_pageId data) = Loaded page →
     validates page' = true →
     update_blocks castId validates now now' data st conn =
     mkOutcome (stored (ub_pageId data) page') conn
       [EmitRoom (ub_pageId data)
          (BlocksUpdated (ub_blocks data) (version page + 1) (user sock)
             (ub_changeType data) (ub_blockId data) now')]) ∧
  (∀ data,
     let page' := applyUpdateSettings (sd_settings data) page in
     findById castId (pages st) (sd_pageId data) = Loaded page →
     validates page' = true →
     update_page_settings castId validates now data st conn =
     mkOutcome (stored (sd_pageId data) page') conn
       [EmitRoom (sd_pageId data)
          (PageSettingsUpdated (castSettings (sd_settings data ∪ settings page))
             (user sock) now)]) ∧
  (∀ data,
     let page' := applyUpdateTitle (td_title data) page in
     findById castId (pages st) (td_pageId data) = Loaded page →
     validates page' = true →
     update_page_title castId validates now data st conn =
     mkOutcome (stored (td_pageId data) page') conn
       [EmitRoom (td_pageId data)
          (PageTitleUpdated (trimSetter (td_title data)) (user sock) now)]) ∧
  (∀ data page',
     findById castId (pages st) (ur_pageId data) = Loaded page →
     navigateHistory page data = Some page' →
     validates page' = true →
     undo_redo castId validates now data st conn =
     mkOutcome (stored (ur_pageId data) page') conn
       [EmitRoom (ur_pageId data)
          (HistoryNavigated (blocks page') (version page') (ur_action data)
             (user sock) now)]) ∧
  (∀ data,
     findById castId (pages st) (ur_pageId data) = Loaded page →
     navigateHistory page data = None →
     undo_redo castId validates now data st conn = mkOutcome st conn []).
Proof.
  intros Ha conn stored. repeat apply conj.
  - intros data page' Hf Hv.
    by apply (update_blocks_accepted castId validates now now' data st conn page).
  - intros data page' Hf Hv.
    by apply (update_page_settings_accepted castId validates now data st conn page).
  - intros data page' Hf Hv.
    by apply (update_page_title_accepted castId validates now data st conn page).
  - intros data page' Hf Hn Hv.
    by apply (undo_redo_found castId validates now data st conn page page').
  - intros data Hf Hn.
    by apply (undo_redo_not_found castId validates now data st conn page).
Qed.

End HandlerProperties.

(** ** The cap at the level of the server *)

(** Whatever a handler stores is a page it loaded, rewritten by one of the
    mutations above. *)
Lemma handle_writes (castId : string -> bool) (validates : Page -> bool)
    (ev : ClientEvent) (st : Server) (sock : Socket) :
  pages (server (handle castId validates ev st sock)) = pages st ∨
  ∃ pageId page m,
    pages st !! pageId = Some page ∧
    pages (server (handle castId validates ev st sock)) =
      <[pageId := applyMutation page m]> (pages st).
Proof.
  destruct ev as [now pageId | now now' d | d | now b | b | b | now d | now d
                 | now d |]; simpl.
  - unfold join_page, findById, fail.
    destruct (castId pageId), (pages st !! pageId); simpl; try by left.
    destruct (negb _); simpl; [by left |].
    destruct (boundRoom sock); by left.
  - unfold update_blocks, findById, fail, commit, save.
    destruct (castId _), (pages st !! ub_pageId d) as [page |] eqn:Hp;
      simpl; try by left.
    destruct (negb _); simpl; [by left |].
    destruct (validates _); simpl; [| by left].
    right. by exists (ub_pageId d), page, (MUpdateBlocks (userId sock) d now).
  - unfold cursor_move, ephemeral. destruct (boundRoom sock); by left.
  - unfold block_select, ephemeral. destruct (boundRoom sock); by left.
  - unfold typing_start, ephemeral. destruct (boundRoom sock); by left.
  - unfold typing_stop, ephemeral. destruct (boundRoom sock); by left.
  - unfold update_page_settings, findById, fail, commit, save.
    destruct (castId _), (pages st !! sd_pageId d) as [page |] eqn:Hp;
      simpl; try by left.
    destruct (negb _); simpl; [by left |].
    destruct (validates _); simpl; [| by left].
    right. by exists (sd_pageId d), page, (MUpdateSettings (sd_settings d)).
  - unfold update_page_title, findById, fail, commit, save.
    destruct (castId _), (pages st !! td_pageId d) as [page |] eqn:Hp;
      simpl; try by left.
    destruct (negb _); simpl; [by left |].
    destruct (validates _); simpl; [| by left].
    right. by exists (td_pageId d), page, (MUpdateTitle (td_title d)).
  - unfold undo_redo, findById, fail, commit, save, skip.
    destruct (castId _), (pages st !! ur_pageId d) as [page |] eqn:Hp;
      simpl; try by left.
    destruct (negb _); simpl; [by left |].
    destruct (navigateHistory page d) as [page' |] eqn:Hn; simpl; [| by left].
    destruct (validates _); simpl; [| by left].
    right. exists (ur_pageId d), page, (MUndoRedo d). simpl. by rewrite Hn.
  - unfold disconnect, skip. destruct (boundRoom sock); by left.
Qed.

Lemma handle_capped (castId : string -> bool) (validates : Page -> bool)
    (ev : ClientEvent) (st : Server) (sock : Socket) :
  capped st → capped (server (handle castId validates ev st sock)).
Proof.
  intros Hst.
  destruct (handle_writes castId validates ev st sock)
    as [Heq | (pageId & page & m & Hpage & Heq)];
    unfold capped; rewrite Heq; [done |].
  intros pageId' p Hp.
  destruct (decide (pageId = pageId')) as [-> | Hne].
  - rewrite lookup_insert_eq in Hp. inversion Hp.
    apply applyMutation_capped. by eapply Hst.
  - rewrite lookup_insert_ne in Hp by done. by eapply Hst.
Qed.

(** The cap survives any run of events of a connection. *)
Lemma run_capped (castId : string -> bool) (validates : Page -> bool)
    (evs : list ClientEvent) (st : Server) (sock : Socket) :
  capped st → capped (server (run castId validates evs st sock)).
Proof.
  revert st sock. induction evs as [| ev evs IH]; intros st sock Hst; simpl;
    [done |].
  apply IH. by apply handle_capped.
Qed.

(** ** Undo and redo *)

Lemma find_snoc_fresh {A} (f : A → bool) (l : list A) (e : A) :
  (∀ x, x ∈ l → f x = false) → f e = true → List.find f (l ++ [e]) = Some e.
Proof.
  intros Hl He. induction l as [| x l IH]; simpl; [by rewrite He |].
  rewrite (Hl x) by left. apply IH. intros y Hy. apply Hl. by right.
Qed.

(** Undo right after an [update-blocks] brings back the blocks and the
    version the page had before it, and leaves the history alone, as long as
    no entry of the history already carried that version. *)
Lemma undo_after_update_fresh (u : string) (d : UpdateBlocksData) (now : Z)
    (p : Page) (pageId : string) :
  (∀ h, h ∈ history p → h_version h ≠ version p) →
  let p1 := applyUpdateBlocks u d now p in
  ∃ p2, navigateHistory p1 (mkUndoRedoData pageId (Some "undo") None) = Some p2 ∧
        blocks p2 = blocks p ∧ version p2 = version p ∧ history p2 = history p1.
Proof.
  intros Hfresh p1.
  assert (Hfind : findHistory p1 (Some (version p)) = Some (blocksEntry u d now p)).
  { assert (Hh : history p1 = history (pushHistory (blocksEntry u d now p) p))
      by reflexivity.
    unfold findHistory. rewrite Hh, pushHistory_drop.
    rewrite drop_app_le by lia. apply find_snoc_fresh.
    - intros h Hin. apply bool_decide_eq_false_2. apply Hfresh.
      by eapply subseteq_drop.
    - by apply bool_decide_eq_true_2. }
  assert (Ht : targetVersion p1 (mkUndoRedoData pageId (Some "undo") None)
               = Some (version p)).
  { unfold targetVersion. simpl. f_equal. lia. }
  unfold navigateHistory. rewrite Ht, Hfind.
  eexists. split; [reflexivity |]. done.
Qed.

(** C3. The state reached by [editSession] holds version 2 and the blocks
    [c]; its history already has an older entry for version 2. After one
    more [update-blocks] (blocks [d], version 3), undo sets the version back
    to 2 without pushing an entry, but [find] returns that older entry and
    the blocks become [a], not the blocks [c] the page had before the
    mutation. *)
Theorem undo_after_update_stale_snapshot :
  let before := run anyId anyPage editSession server0 aliceSocket in
  let edited :=
    update_blocks anyId anyPage 6 6 (replaceBlocks "d") (server before) (socket before) in
  let undone := undo_redo anyId anyPage 7 undo (server edited) (socket edited) in
  blocks <$> pageAfter before "p1" = Some [textBlock "c"] ∧
  version <$> pageAfter before "p1" = Some 2%Z ∧
  h_version <$> (default [] (history <$> pageAfter before "p1")) = [1; 2; 1]%Z ∧
  blocks <$> pageAfter edited "p1" = Some [textBlock "d"] ∧
  version <$> pageAfter edited "p1" = Some 3%Z ∧
  blocks <$> pageAfter undone "p1" = Some [textBlock "a"] ∧
  version <$> pageAfter undone "p1" = Some 2%Z ∧
  history <$> pageAfter undone "p1" = history <$> pageAfter edited "p1" ∧
  blocks <$> pageAfter undone "p1" ≠ blocks <$> pageAfter before "p1".
Proof. vm_compute. repeat split; congruence. Qed.

(** C4. From the fresh page [p1] (no blocks, version 1), one
    [update-blocks] gives blocks [a] at version 2; undo brings back the
    empty page at version 1; redo then targets version 2, which no history
    entry carries, so it does nothing: the blocks stay empty instead of
    going back to [a]. *)
Theorem redo_after_undo_does_nothing :
  let edited :=
    update_blocks anyId anyPage 1 1 (replaceBlocks "a") server0 aliceSocket in
  let undone := undo_redo anyId anyPage 2 undo (server edited) (socket edited) in
  let redone := undo_redo anyId anyPage 3 redo (server undone) (socket undone) in
  blocks <$> pageAfter edited "p1" = Some [textBlock "a"] ∧
  version <$> pageAfter edited "p1" = Some 2%Z ∧
  blocks <$> pageAfter undone "p1" = Some [] ∧
  version <$> pageAfter undone "p1" = Some 1%Z ∧
  redone = mkOutcome (server undone) (socket undone) [] ∧
  blocks <$> pageAfter redone "p1" = Some [] ∧
  blocks <$> pageAfter redone "p1" ≠ blocks <$> pageAfter edited "p1".
Proof. vm_compute. repeat split; congruence. Qed.

(** ** Switching rooms *)

(** No run of [join-page] emits [user-left], to anyone. *)
Lemma join_page_never_user_left (castId : string -> bool) (now : Z)
    (pageId : string) (st : Server) (sock : Socket) :
  Forall (λ e, eventName (payloadOf e) ≠ "user-left")
    (emitted (join_page castId now pageId st sock)).
Proof.
  unfold join_page, fail.
  destruct (findById castId (pages st) pageId); simpl;
    [by repeat constructor | by repeat constructor |].
  destruct (negb _); simpl; [by repeat constructor |].
  destruct (boundRoom sock); by repeat constructor.
Qed.

(** [disconnect], in contrast, notifies the room it leaves. *)
Lemma disconnect_emits_user_left (st : Server) (sock : Socket) (cur : string) :
  boundRoom sock = Some cur →
  emitted (disconnect st sock) = [EmitRoom cur (UserLeft (userId sock) (user sock))].
Proof. intros H. unfold disconnect. by rewrite H. Qed.

(** A successful join leaves the connection in the joined room only. *)
Lemma join_page_single_room (castId : string -> bool) (now : Z)
    (pageId : string) (st : Server) (sock : Socket) :
  pageId ≠ "" → singleRoom sock →
  singleRoom (socket (join_page castId now pageId st sock)).
Proof.
  intros Hid Hone. unfold join_page, fail.
  destruct (findById castId (pages st) pageId); simpl; [done | done |].
  destruct (negb _); simpl; [done |].
  assert (Hb : ∀ r, boundRoom (bind (Some pageId) r sock) = Some pageId).
  { intros r. unfold boundRoom. simpl. by rewrite bool_decide_eq_true_2. }
  destruct (boundRoom sock) as [cur |] eqn:Hcur; simpl; intros r Hr; rewrite Hb;
    apply elem_of_union in Hr as [Hr | Hr].
  - apply elem_of_difference in Hr as [Hr Hne].
    apply Hone in Hr. rewrite Hcur in Hr. inversion Hr. set_solver.
  - apply elem_of_singleton in Hr. by subst.
  - apply Hone in Hr. by rewrite Hcur in Hr.
  - apply elem_of_singleton in Hr. by subst.
Qed.

(** C5. Alice's connection is bound to [p1], where Bob is too, and joins
    [p2]. The handler emits [user-joined] to the room of [p2] and
    [active-users] to Alice, and nothing else: no [user-left] is emitted and
    Bob, the remaining member of [p1], receives nothing. Alice's connection
    does end up in the room of [p2] alone and out of the presence list of
    [p1]; the [disconnect] handler run from the same state does emit
    [user-left] to the room of [p1]. *)
Theorem join_other_page_no_user_left :
  let st := server aliceInP1 in
  let conn := socket aliceInP1 in
  let bobConn := socket bobInP1 in
  let o := join_page anyId 12 "p2" st conn in
  currentPageId conn = Some "p1" ∧ rooms bobConn = {["p1"]} ∧
  present "p1" "u1" (activeUsers st) = true ∧
  emitted o =
    [EmitRoom "p2" (UserJoined "u1" alice);
     EmitSelf (ActiveUsers [mkActiveUser "u1" "Alice" "a.png" 12])] ∧
  Forall (λ e, eventName (payloadOf e) ≠ "user-left") (emitted o) ∧
  Forall (λ e, recipients conn [bobConn] e ≠ ["s2"]) (emitted o) ∧
  currentPageId (socket o) = Some "p2" ∧ rooms (socket o) = {["p2"]} ∧
  present "p1" "u1" (activeUsers (server o)) = false ∧
  present "p2" "u1" (activeUsers (server o)) = true ∧
  emitted (disconnect st conn) = [EmitRoom "p1" (UserLeft "u1" alice)] ∧
  recipients conn [bobConn] (EmitRoom "p1" (UserLeft "u1" alice)) = ["s2"].
Proof.
  vm_compute. repeat split; try congruence; repeat constructor; congruence.
Qed.

(** * Concrete instances *)

(** Counterexample to C1 as the specification words it: Alice, the owner
    of [p1], renames it. The event is accepted (the title is stored and
    broadcast), yet the history stays empty and the version stays 1, so the
    mutation is not logged. *)
Lemma title_update_not_logged :
  let o := update_page_title anyId anyPage 5 renameP1 server0 aliceSocket in
  hasAccess page1 (userId aliceSocket) editor = true ∧
  emitted o = [EmitRoom "p1" (PageTitleUpdated "Start" alice 5)] ∧
  ∃ page', pageAfter o "p1" = Some page' ∧ title page' = "Start" ∧
           history page' = history page1 ∧ version page' = version page1 ∧
           ¬ logged page1 page'.
Proof.
  split; [reflexivity |]. split; [reflexivity |].
  eexists. split; [reflexivity |]. do 3 (split; [reflexivity |]).
  intros (e & _ & _ & _ & Hv). simpl in Hv. discriminate Hv.
Qed.

(** Bob, an editor of [p1], replaces its blocks, changes a setting and
    renames it. *)
Lemma accepted_mutations_logging_witness :
  hasAccess page1 (userId bobSocket) editor = true ∧
  logged page1 (applyUpdateBlocks "u2" (replaceBlocks "a") 1 page1) ∧
  pageAfter (update_blocks anyId anyPage 1 2 (replaceBlocks "a") server0 bobSocket) "p1"
    = Some (applyUpdateBlocks "u2" (replaceBlocks "a") 1 page1) ∧
  version (applyUpdateBlocks "u2" (replaceBlocks "a") 1 page1) = 2%Z ∧
  (settings <$> pageAfter (update_page_settings anyId anyPage 1 themeAndMore server0
                             bobSocket) "p1"
     = Some {["theme" := "dark"]} ∧
   version (applyUpdateSettings (sd_settings themeAndMore) page1) = 1%Z) ∧
  (title <$> pageAfter (update_page_title anyId anyPage 1 renamePadded server0
                          bobSocket) "p1"
     = Some "Start Here" ∧
   history (applyUpdateTitle (td_title renamePadded) page1) = []).
Proof.
  assert (Ha : hasAccess page1 (userId bobSocket) editor = true) by reflexivity.
  destruct (accepted_mutations_logging anyId anyPage 1 2 server0 bobSocket page1 Ha)
    as (Hb & Hs & Ht).
  destruct (Hb (replaceBlocks "a") eq_refl eq_refl) as (Hb1 & _ & Hb2 & Hb3 & _).
  destruct (Hs themeAndMore eq_refl eq_refl) as (Hs0 & _ & _ & Hs2).
  destruct (Ht renamePadded eq_refl eq_refl) as (Ht0 & _ & Ht2 & _).
  split; [exact Ha |]. split; [exact Hb2 |]. split; [exact Hb1 |].
  split; [exact Hb3 |]. split.
  - split; [| exact Hs2].
    refine (eq_trans (f_equal (fmap settings) Hs0) _). vm_compute. reflexivity.
  - split; [| exact Ht2].
    refine (eq_trans (f_equal (fmap title) Ht0) _). vm_compute. reflexivity.
Defined.

(** Twelve edits in a row on [p1] and on a new page. *)
Lemma history_capped_fifo_witness :
  length (history page1) ≤ 10 ∧
  length (history (applyMutations twelveEdits page1)) ≤ 10 ∧
  length (history (applyMutations twelveEdits (newPage "New" "u1" ∅))) ≤ 10 ∧
  (∃ evicted,
     history page1 ++ [blocksEntry "u1" (replaceBlocks "a") 1 page1] =
       evicted ++ history (applyMutation page1 (MUpdateBlocks "u1" (replaceBlocks "a") 1)) ∧
     length evicted = length (history page1) + 1 - 10 ∧
     length (history (applyMutation page1 (MUpdateBlocks "u1" (replaceBlocks "a") 1))) ≤ 10) ∧
  history (applyMutation page1 (MUpdateTitle "Start")) = history page1.
Proof.
  destruct (history_capped_fifo page1 twelveEdits) as (Hcap & Hnew & Hpush & Hkeep).
  assert (H0 : length (history page1) ≤ 10) by (simpl; lia).
  split; [exact H0 |]. split; [exact (Hcap H0) |].
  split; [exact (Hnew "New" "u1" ∅) |].
  split; [exact (Hpush (MUpdateBlocks "u1" (replaceBlocks "a") 1) _ eq_refl) |].
  exact (Hkeep (MUpdateTitle "Start") eq_refl).
Defined.

(** The owner, a stranger, the viewer Carol and the editor Bob on [p1]. *)
Lemma hasAccess_spec_witness :
  hasAccess page1 "u1" admin = true ∧
  hasAccess page1 "u9" viewer = false ∧
  (hasAccess page1 "u3" editor = true ↔ (1 >= 2)%Z) ∧
  (hasAccess page1 "u2" editor = true ↔ (2 >= 2)%Z).
Proof.
  destruct (hasAccess_spec page1 "u1" admin) as (Howner & _).
  destruct (hasAccess_spec page1 "u9" viewer) as (_ & Hnone & _).
  destruct (hasAccess_spec page1 "u3" editor) as (_ & _ & Hcarol & _).
  destruct (hasAccess_spec page1 "u2" editor) as (_ & _ & Hbob & _).
  split; [exact (Howner eq_refl) |].
  split.
  - apply Hnone; [discriminate |].
    intros c Hc. simpl in Hc.
    apply elem_of_cons in Hc as [-> | Hc]; [discriminate |].
    apply elem_of_cons in Hc as [-> | Hc]; [discriminate |].
    inversion Hc.
  - split.
    + apply (Hcarol (mkCollaborator "u3" viewer 0)); [discriminate | reflexivity].
    + apply (Hbob (mkCollaborator "u2" editor 0)); [discriminate | reflexivity].
Defined.

(** Undo on a page whose history is empty. *)
Lemma undo_redo_missing_target_silent_witness :
  findById anyId (pages server0) "p1" = Loaded page1 ∧
  hasAccess page1 "u1" editor = true ∧
  findHistory page1 (targetVersion page1 undo) = None ∧
  (let o := undo_redo anyId anyPage 9 undo server0 aliceSocket in
   server o = server0 ∧ socket o = aliceSocket ∧ emitted o = [] ∧
   pageAfter o "p1" = Some page1).
Proof.
  split; [reflexivity |]. split; [reflexivity |]. split; [reflexivity |].
  exact (undo_redo_missing_target_silent anyId anyPage 9 undo server0 aliceSocket
           page1 eq_refl eq_refl eq_refl).
Defined.

(** Carol, a viewer of [p1], tries to replace its blocks. *)
Lemma viewer_update_blocks_rejected_witness :
  findById anyId (pages server0) "p1" = Loaded page1 ∧
  owner page1 ≠ "u3" ∧
  findCollaborator page1 "u3" = Some (mkCollaborator "u3" viewer 0) ∧
  (let o := update_blocks anyId anyPage 1 2 (replaceBlocks "x") server0 carolSocket in
   server o = server0 ∧ socket o = carolSocket ∧
   pageAfter o "p1" = Some page1 ∧
   emitted o = [EmitSelf (ErrorEvent "Access denied")] ∧
   Forall (λ e, isBroadcast e = false) (emitted o) ∧
   (∀ peers e, e ∈ emitted o → recipients carolSocket peers e = ["s3"])).
Proof.
  assert (Ho : owner page1 ≠ userId carolSocket) by discriminate.
  split; [reflexivity |]. split; [exact Ho |]. split; [reflexivity |].
  exact (viewer_update_blocks_rejected anyId anyPage 1 2 (replaceBlocks "x") server0
           carolSocket page1 (mkCollaborator "u3" viewer 0)
           eq_refl Ho eq_refl eq_refl).
Defined.

(** A typing indicator from a connection that joined no page. *)
Lemma ephemeral_unbound_dropped_witness :
  isEphemeral (TypingStart (Some "a")) = true ∧
  currentPageId aliceSocket = None ∧
  handle anyId anyPage (TypingStart (Some "a")) server0 aliceSocket
    = mkOutcome server0 aliceSocket [].
Proof.
  split; [reflexivity |]. split; [reflexivity |].
  exact (ephemeral_unbound_dropped anyId anyPage (TypingStart (Some "a")) server0
           aliceSocket eq_refl eq_refl).
Defined.

(** Counterexample to C9 as the specification words it: Alice owns [p1]
    and her connection has joined no room. Her [undo-redo] on the fresh page
    finds no history entry for version 0: the page is not written and
    nothing is broadcast to the room of [p1]. *)
Lemma undo_redo_unbound_no_write_no_broadcast :
  let o := undo_redo anyId anyPage 9 undo server0 aliceSocket in
  hasAccess page1 (userId aliceSocket) editor = true ∧
  currentPageId aliceSocket = None ∧
  server o = server0 ∧
  ¬ (∃ payload, EmitRoom "p1" payload ∈ emitted o).
Proof.
  split; [reflexivity |]. split; [reflexivity |]. split; [reflexivity |].
  intros [payload Hin]. inversion Hin.
Qed.

(** Bob edits [p1] from a connection bound to [p2]. *)
Lemma mutating_handlers_ignore_binding_witness :
  hasAccess page1 (userId bobSocket) editor = true ∧
  currentPageId bobInP2 = Some "p2" ∧
  update_blocks anyId anyPage 1 2 (replaceBlocks "a") server0 bobInP2 =
    mkOutcome
      (mkServer (<["p1" := applyUpdateBlocks "u2" (replaceBlocks "a") 1 page1]> (pages server0))
         (activeUsers server0))
      bobInP2
      [EmitRoom "p1"
         (BlocksUpdated [textBlock "a"] 2 bob (Some "update") (Some "a") 2)] ∧
  update_page_settings anyId anyPage 1 themeAndMore server0 bobInP2 =
    mkOutcome
      (mkServer (<["p1" := set_settings {["theme" := "dark"]} page1]> (pages server0))
         (activeUsers server0))
      bobInP2
      [EmitRoom "p1" (PageSettingsUpdated {["theme" := "dark"]} bob 1)] ∧
  update_page_title anyId anyPage 1 renamePadded server0 bobInP2 =
    mkOutcome
      (mkServer (<["p1" := set_title "Start Here" page1]> (pages server0))
         (activeUsers server0))
      bobInP2
      [EmitRoom "p1" (PageTitleUpdated "Start Here" bob 1)] ∧
  undo_redo anyId anyPage 1 undo server0 bobInP2 = mkOutcome server0 bobInP2 [].
Proof.
  assert (Ha : hasAccess page1 (userId bobSocket) editor = true) by reflexivity.
  destruct (mutating_handlers_ignore_binding anyId anyPage 1 2 server0 bobSocket
              (Some "p2") {["p2"]} page1 Ha) as (Hb & Hs & Ht & _ & Hn).
  split; [exact Ha |]. split; [reflexivity |].
  split; [exact (Hb (replaceBlocks "a") eq_refl eq_refl) |].
  split; [exact (Hs themeAndMore eq_refl eq_refl) |].
  split; [exact (Ht renamePadded eq_refl eq_refl) |].
  exact (Hn undo eq_refl eq_refl).
Defined.

(** * Further properties *)

(** ** Access control and collaborators *)

(** X1. Access is monotone in the role asked for: whoever passes the check
    for a role passes it for every lower role. *)
Theorem hasAccess_monotone (p : Page) (uid : string) (r r' : Role) :
  (roleHierarchy r ≤ roleHierarchy r')%Z →
  hasAccess p uid r' = true → hasAccess p uid r = true.
Proof.
  unfold hasAccess. intros Hr.
  destruct (bool_decide (owner p = uid)); [done |].
  destruct (findCollaborator p uid); [| done].
  intros H. apply Z.leb_le in H. apply Z.leb_le. lia.
Qed.

Lemma hasAccess_monotone_witness :
  (roleHierarchy viewer ≤ roleHierarchy editor)%Z ∧
  hasAccess page1 "u2" editor = true ∧ hasAccess page1 "u2" viewer = true.
Proof.
  assert (Hr : (roleHierarchy viewer ≤ roleHierarchy editor)%Z) by (simpl; lia).
  split; [exact Hr |]. split; [reflexivity |].
  exact (hasAccess_monotone page1 "u2" viewer editor Hr eq_refl).
Defined.

Lemma hasAccessDefault_listed (p : Page) (uid : string) :
  hasAccessDefault p uid = true →
  owner p = uid ∨ ∃ c, c ∈ collaborators p ∧ collab_user c = uid.
Proof.
  unfold hasAccessDefault, hasAccess. case_bool_decide as Ho; [by left |].
  destruct (findCollaborator p uid) as [c |] eqn:Hc; [| done].
  intros _. right. exists c. by apply findCollaborator_Some.
Qed.

(** X2. The default check ([hasAccess(userId)], what [join-page] asks) passes
    exactly for the owner and for the users listed as collaborators,
    whatever their role. *)
Theorem hasAccessDefault_iff (p : Page) (uid : string) :
  hasAccessDefault p uid = true ↔
  owner p = uid ∨ ∃ c, c ∈ collaborators p ∧ collab_user c = uid.
Proof.
  split; [apply hasAccessDefault_listed |].
  unfold hasAccessDefault, hasAccess. case_bool_decide as Ho; [done |].
  destruct (findCollaborator p uid) as [c |] eqn:Hc.
  - intros _. apply Z.leb_le. destruct (collab_role c); simpl; lia.
  - intros [Heq | (c & Hin & Hu)]; [done |].
    exfalso. by eapply (proj1 (findCollaborator_None p uid)).
Qed.

Lemma findCollaborator_app_fresh (p : Page) (uid uid' : string) (c : Collaborator) :
  collab_user c = uid → uid' ≠ uid →
  List.find (λ collab, bool_decide (collab_user collab = uid')) (collaborators p ++ [c])
  = findCollaborator p uid'.
Proof.
  intros Hc Hne. unfold findCollaborator.
  induction (collaborators p) as [| x l IH]; simpl.
  - rewrite bool_decide_eq_false_2; [done | congruence].
  - by destruct (bool_decide (collab_user x = uid')).
Qed.

(** X3. Adding a collaborator who has no entry yet grants exactly the role
    given (editor when none is given), unless the user is the owner; the
    access of every other user is unchanged. *)
Theorem addCollaborator_grants (uid : string) (role : option Role) (now : Z)
    (p : Page) :
  findCollaborator p uid = None →
  let p' := addCollaborator uid role now p in
  (∀ r, owner p ≠ uid →
     hasAccess p' uid r =
     (roleHierarchy r <=? roleHierarchy (default editor role))%Z) ∧
  (∀ uid' r, uid' ≠ uid → hasAccess p' uid' r = hasAccess p uid' r) ∧
  owner p' = owner p ∧
  collaboratorsCount p' = collaboratorsCount p + 1.
Proof.
  intros Hnone p'. subst p'. unfold addCollaborator. rewrite Hnone.
  split; [| split; [| split]].
  - intros r Ho. unfold hasAccess. simpl.
    rewrite bool_decide_eq_false_2 by done.
    unfold findCollaborator in *. simpl.
    assert (Hfind : ∀ l, List.find (λ c, bool_decide (collab_user c = uid)) l = None →
              List.find (λ c, bool_decide (collab_user c = uid))
                (l ++ [mkCollaborator uid (default editor role) now])
              = Some (mkCollaborator uid (default editor role) now)).
    { induction l as [| x l IH]; simpl.
      - by rewrite bool_decide_eq_true_2.
      - destruct (bool_decide (collab_user x = uid)); [done | apply IH]. }
    by rewrite Hfind.
  - intros uid' r Hne. unfold hasAccess. simpl.
    destruct (bool_decide (owner p = uid')); [done |].
    unfold findCollaborator at 1. simpl.
    by rewrite (findCollaborator_app_fresh p uid uid').
  - done.
  - unfold collaboratorsCount. simpl. by rewrite length_app.
Qed.

Lemma addCollaborator_grants_witness :
  findCollaborator page2 "u2" = None ∧
  hasAccess (addCollaborator "u2" None 7 page2) "u2" editor = true ∧
  hasAccess (addCollaborator "u2" None 7 page2) "u2" admin = false ∧
  hasAccess (addCollaborator "u2" None 7 page2) "u3" viewer = false.
Proof.
  destruct (addCollaborator_grants "u2" None 7 page2 eq_refl) as (Hg & Hf & _).
  split; [reflexivity |].
  split; [rewrite Hg by discriminate; reflexivity |].
  split; [rewrite Hg by discriminate; reflexivity |].
  rewrite Hf by discriminate. reflexivity.
Defined.

(** X4. [addCollaborator] never changes the role of a user who already has
    an entry: the document is returned as it is, so a second call with
    another role neither promotes nor demotes. *)
Theorem addCollaborator_keeps_existing (uid : string) (role role' : option Role)
    (now now' : Z) (p : Page) :
  addCollaborator uid role' now' (addCollaborator uid role now p)
  = addCollaborator uid role now p.
Proof.
  set (q := addCollaborator uid role now p).
  assert (Hq : findCollaborator q uid ≠ None).
  { subst q. unfold addCollaborator.
    destruct (findCollaborator p uid) as [c |] eqn:Hc; [by rewrite Hc |].
    unfold findCollaborator. simpl.
    induction (collaborators p) as [| x l IH]; simpl.
    - by rewrite bool_decide_eq_true_2.
    - by destruct (bool_decide (collab_user x = uid)). }
  unfold addCollaborator at 1. by destruct (findCollaborator q uid).
Qed.

(** X5. [addCollaborator] keeps the collaborator list free of duplicates. *)
Theorem addCollaborator_distinct (uid : string) (role : option Role) (now : Z)
    (p : Page) :
  distinctCollaborators p → distinctCollaborators (addCollaborator uid role now p).
Proof.
  unfold distinctCollaborators, addCollaborator. intros Hnd.
  destruct (findCollaborator p uid) eqn:Hc; [done |]. simpl.
  rewrite fmap_app. simpl. apply NoDup_app. split; [done |].
  split; [| apply NoDup_singleton].
  intros u Hu Hin. apply list_elem_of_singleton in Hin. subst u.
  apply list_elem_of_fmap in Hu as (c & Hcu & Hcin).
  by eapply (proj1 (findCollaborator_None p uid)).
Qed.

Lemma addCollaborator_distinct_witness :
  distinctCollaborators page1 ∧
  distinctCollaborators (addCollaborator "u4" (Some admin) 3 page1).
Proof.
  assert (H : distinctCollaborators page1).
  { unfold distinctCollaborators. by apply (bool_decide_unpack _). }
  split; [exact H |].
  exact (addCollaborator_distinct "u4" (Some admin) 3 page1 H).
Defined.

Lemma removeCollaborator_no_access (uid : string) (p : Page) (r : Role) :
  owner p ≠ uid → hasAccess (removeCollaborator uid p) uid r = false.
Proof.
  intros Ho. unfold removeCollaborator, hasAccess, findCollaborator. simpl.
  rewrite bool_decide_eq_false_2 by done.
  assert (Hnone : List.find (λ c, bool_decide (collab_user c = uid))
                    (filter (λ c, collab_user c ≠ uid) (collaborators p)) = None).
  { induction (collaborators p) as [| x l IH]; [done |].
    rewrite filter_cons. case_decide as Hx; [| done]. simpl.
    by rewrite bool_decide_eq_false_2. }
  by rewrite Hnone.
Qed.

(** X6. [removeCollaborator] revokes every access of a user who is not the
    owner, leaves the owner's access whole even when the owner's id is the
    one removed, and changes nobody else's access. *)
Theorem removeCollaborator_revokes (uid : string) (p : Page) :
  let p' := removeCollaborator uid p in
  (owner p ≠ uid → ∀ r, hasAccess p' uid r = false) ∧
  (∀ r, hasAccess p' (owner p) r = true) ∧
  (∀ uid' r, uid' ≠ uid → hasAccess p' uid' r = hasAccess p uid' r).
Proof.
  intros p'. subst p'. split; [| split].
  - intros Ho r. by apply removeCollaborator_no_access.
  - intros r. unfold removeCollaborator, hasAccess. simpl.
    by rewrite bool_decide_eq_true_2.
  - intros uid' r Hne. unfold removeCollaborator, hasAccess, findCollaborator.
    simpl. destruct (bool_decide (owner p = uid')); [done |].
    assert (Hsame : List.find (λ c, bool_decide (collab_user c = uid'))
                      (filter (λ c, collab_user c ≠ uid) (collaborators p))
                    = List.find (λ c, bool_decide (collab_user c = uid'))
                        (collaborators p)).
    { induction (collaborators p) as [| x l IH]; [done |].
      rewrite filter_cons. case_decide as Hx; simpl.
      - by destruct (bool_decide (collab_user x = uid')).
      - rewrite bool_decide_eq_false_2; [done |].
        intros Heq. congruence. }
    by rewrite Hsame.
Qed.

Lemma removeCollaborator_revokes_witness :
  owner page1 ≠ "u2" ∧
  hasAccess (removeCollaborator "u2" page1) "u2" viewer = false ∧
  hasAccess (removeCollaborator "u2" page1) "u3" viewer = true.
Proof.
  destruct (removeCollaborator_revokes "u2" page1) as (Hr & _ & Hf).
  assert (Ho : owner page1 ≠ "u2") by discriminate.
  split; [exact Ho |]. split; [exact (Hr Ho viewer) |].
  rewrite Hf by discriminate. reflexivity.
Defined.

(** ** The presence registry *)

Lemma addUserToPage_insert (pageId uid : string) (u : User) (now : Z)
    (registry : Presence) :
  addUserToPage pageId uid u now registry =
  <[pageId := <[uid := mkActiveUser (user_id u) (user_name u) (user_avatar u) now]>
                (default ∅ (registry !! pageId))]> registry.
Proof.
  unfold addUserToPage. destruct (registry !! pageId) eqn:H; simpl.
  - by rewrite H.
  - rewrite lookup_insert_eq. simpl. by rewrite insert_insert_eq.
Qed.

Lemma removeUserFromPage_lookup (pageId uid pageId' : string) (registry : Presence) :
  removeUserFromPage pageId uid registry !! pageId' =
  if decide (pageId = pageId') then
    match registry !! pageId with
    | Some pageUsers =>
        if decide (delete uid pageUsers = ∅) then None
        else Some (delete uid pageUsers)
    | None => None
    end
  else registry !! pageId'.
Proof.
  unfold removeUserFromPage.
  destruct (registry !! pageId) as [pageUsers |] eqn:H.
  - case_bool_decide as Hsz.
    + apply map_size_empty_iff in Hsz.
      destruct (decide (pageId = pageId')) as [<- | Hne].
      * rewrite lookup_delete_eq. by rewrite decide_True.
      * by rewrite lookup_delete_ne.
    + apply map_size_non_empty_iff in Hsz.
      destruct (decide (pageId = pageId')) as [<- | Hne].
      * rewrite lookup_insert_eq. by rewrite decide_False.
      * by rewrite lookup_insert_ne.
  - destruct (decide (pageId = pageId')) as [<- | Hne]; by rewrite ?H.
Qed.

Lemma present_after_add (pageId uid : string) (u : User) (now : Z)
    (registry : Presence) :
  present pageId uid (addUserToPage pageId uid u now registry) = true.
Proof.
  rewrite addUserToPage_insert. unfold present.
  rewrite !lookup_insert_eq. by rewrite bool_decide_eq_true_2.
Qed.

Lemma entry_after_add (pageId uid : string) (u : User) (now : Z)
    (registry : Presence) :
  mkActiveUser (user_id u) (user_name u) (user_avatar u) now
    ∈ getActiveUsersForPage pageId (addUserToPage pageId uid u now registry).
Proof.
  rewrite addUserToPage_insert. unfold getActiveUsersForPage.
  rewrite lookup_insert_eq.
  apply list_elem_of_fmap. eexists (uid, _). split; [done |].
  apply elem_of_map_to_list. apply lookup_insert_eq.
Qed.

Lemma present_add_other (pageId uid pageId' uid' : string) (u : User) (now : Z)
    (registry : Presence) :
  (pageId', uid') ≠ (pageId, uid) →
  present pageId' uid' (addUserToPage pageId uid u now registry)
  = present pageId' uid' registry.
Proof.
  intros Hne. rewrite addUserToPage_insert. unfold present.
  destruct (decide (pageId = pageId')) as [<- | Hp].
  - rewrite lookup_insert_eq.
    assert (uid ≠ uid') by congruence.
    rewrite lookup_insert_ne by done.
    destruct (registry !! pageId); simpl; [done |].
    rewrite lookup_empty. by rewrite bool_decide_eq_false_2 by (by intros [? ?]).
  - by rewrite lookup_insert_ne.
Qed.

(** X7. After [addUserToPage] the user is counted on the page, under an
    entry built from the user record and the clock; nobody else's presence,
    on this page or another, changes. *)
Theorem addUserToPage_present (pageId uid : string) (u : User) (now : Z)
    (registry : Presence) :
  let registry' := addUserToPage pageId uid u now registry in
  present pageId uid registry' = true ∧
  mkActiveUser (user_id u) (user_name u) (user_avatar u) now
    ∈ getActiveUsersForPage pageId registry' ∧
  (∀ pageId' uid', (pageId', uid') ≠ (pageId, uid) →
     present pageId' uid' registry' = present pageId' uid' registry).
Proof.
  intros registry'. subst registry'.
  split; [apply present_after_add |]. split; [apply entry_after_add |].
  intros pageId' uid'. apply present_add_other.
Qed.

Lemma present_after_remove (pageId uid : string) (registry : Presence) :
  present pageId uid (removeUserFromPage pageId uid registry) = false.
Proof.
  unfold present. rewrite removeUserFromPage_lookup, decide_True by done.
  destruct (registry !! pageId) as [pageUsers |]; [| done].
  case_decide; [done |]. rewrite lookup_delete_eq.
  by rewrite bool_decide_eq_false_2 by (by intros [? ?]).
Qed.

Lemma present_remove_other (pageId uid pageId' uid' : string) (registry : Presence) :
  (pageId', uid') ≠ (pageId, uid) →
  present pageId' uid' (removeUserFromPage pageId uid registry)
  = present pageId' uid' registry.
Proof.
  intros Hne. unfold present. rewrite removeUserFromPage_lookup.
  destruct (decide (pageId = pageId')) as [<- | Hp]; [| done].
  assert (Hu : uid ≠ uid') by congruence.
  destruct (registry !! pageId) as [pageUsers |]; [| done].
  case_decide as He.
  - assert (Hl : delete uid pageUsers !! uid' = None) by (by rewrite He).
    rewrite lookup_delete_ne in Hl by done. rewrite Hl.
    by rewrite bool_decide_eq_false_2 by (by intros [? ?]).
  - by rewrite lookup_delete_ne.
Qed.

(** X8. After [removeUserFromPage] the user is no longer counted on the
    page, and nobody else's presence changes. Removing a user from a page
    that has no map changes nothing at all. *)
Theorem removeUserFromPage_absent (pageId uid : string) (registry : Presence) :
  let registry' := removeUserFromPage pageId uid registry in
  present pageId uid registry' = false ∧
  (∀ pageId' uid', (pageId', uid') ≠ (pageId, uid) →
     present pageId' uid' registry' = present pageId' uid' registry) ∧
  (registry !! pageId = None → registry' = registry).
Proof.
  intros registry'. subst registry'.
  split; [apply present_after_remove |].
  split; [intros pageId' uid'; apply present_remove_other |].
  intros Hnone. unfold removeUserFromPage. by rewrite Hnone.
Qed.

Lemma addUserToPage_tidy (pageId uid : string) (u : User) (now : Z)
    (registry : Presence) :
  tidy registry → tidy (addUserToPage pageId uid u now registry).
Proof.
  intros Ht pageId' pageUsers. rewrite addUserToPage_insert.
  destruct (decide (pageId = pageId')) as [<- | Hne].
  - rewrite lookup_insert_eq. intros [= <-]. apply insert_non_empty.
  - rewrite lookup_insert_ne by done. apply Ht.
Qed.

Lemma removeUserFromPage_tidy (pageId uid : string) (registry : Presence) :
  tidy registry → tidy (removeUserFromPage pageId uid registry).
Proof.
  intros Ht pageId' pageUsers. rewrite removeUserFromPage_lookup.
  destruct (decide (pageId = pageId')) as [<- | Hne]; [| apply Ht].
  destruct (registry !! pageId); [| done].
  case_decide; [done |]. by intros [= <-].
Qed.

(** The registry-level round trip behind X10. *)
Lemma remove_add_round_trip (pageId uid : string) (u : User) (now : Z)
    (registry : Presence) :
  tidy registry → present pageId uid registry = false →
  removeUserFromPage pageId uid (addUserToPage pageId uid u now registry) = registry.
Proof.
  intros Ht Hp. rewrite addUserToPage_insert. unfold removeUserFromPage.
  rewrite lookup_insert_eq. unfold present in Hp.
  destruct (registry !! pageId) as [pageUsers |] eqn:Hr; simpl.
  - assert (Hu : pageUsers !! uid = None).
    { destruct (pageUsers !! uid) eqn:Hu; [| done].
      by rewrite bool_decide_eq_true_2 in Hp. }
    rewrite delete_insert_id by done.
    rewrite bool_decide_eq_false_2.
    + rewrite insert_insert_eq. by apply insert_id.
    + apply map_size_non_empty_iff. by eapply Ht.
  - rewrite delete_insert_id by apply lookup_empty.
    rewrite bool_decide_eq_true_2 by apply map_size_empty.
    by apply delete_insert_id.
Qed.

Lemma headCount_after_add (pageId uid : string) (u : User) (now : Z)
    (registry : Presence) :
  headCount pageId (addUserToPage pageId uid u now registry) =
  if present pageId uid registry then headCount pageId registry
  else S (headCount pageId registry).
Proof.
  unfold headCount, getActiveUsersForPage, present.
  rewrite addUserToPage_insert, lookup_insert_eq.
  rewrite length_fmap, length_map_to_list, map_size_insert.
  destruct (registry !! pageId) as [pageUsers |]; simpl.
  - rewrite length_fmap, length_map_to_list.
    destruct (pageUsers !! uid) eqn:Hu.
    + by rewrite bool_decide_eq_true_2.
    + by rewrite bool_decide_eq_false_2 by (by intros [? ?]).
  - by rewrite lookup_empty.
Qed.

(** X11. A user is counted once per page however often they are added: the
    head count of the page goes up by one when the user was not counted yet
    and stays the same otherwise; a page without a map counts nobody. *)
Theorem headCount_add (pageId uid : string) (u : User) (now : Z)
    (registry : Presence) :
  headCount pageId (addUserToPage pageId uid u now registry) =
    (if present pageId uid registry then headCount pageId registry
     else S (headCount pageId registry)) ∧
  (registry !! pageId = None → headCount pageId registry = 0).
Proof.
  split; [apply headCount_after_add |].
  unfold headCount, getActiveUsersForPage. by intros ->.
Qed.

(** ** Joining, leaving and the handlers as a whole *)

Section HandlerInvariants.

Variable castId : string -> bool.
Variable validates : Page -> bool.

(** What a successful [join-page] returns. *)
Lemma join_page_joined (now : Z) (pageId : string) (st : Server) (sock : Socket)
    (page : Page) :
  findById castId (pages st) pageId = Loaded page →
  hasAccessDefault page (userId sock) = true →
  let left :=
    match boundRoom sock with
    | Some cur => removeUserFromPage cur (userId sock) (activeUsers st)
    | None => activeUsers st
    end in
  let registry := addUserToPage pageId (userId sock) (user sock) now left in
  let joined :=
    match boundRoom sock with
    | Some cur => rooms sock ∖ {[cur]}
    | None => rooms sock
    end ∪ {[pageId]} in
  join_page castId now pageId st sock =
  mkOutcome (mkServer (pages st) registry) (bind (Some pageId) joined sock)
    [EmitRoom pageId (UserJoined (userId sock) (user sock));
     EmitSelf (ActiveUsers (getActiveUsersForPage pageId registry))].
Proof.
  intros Hf Ha. unfold join_page. rewrite Hf, Ha. simpl.
  by destruct (boundRoom sock).
Qed.

(** X9. Whatever events a connection sends, the registry never holds a page
    with an empty user map: [removeUserFromPage] drops the map of a page as
    its last user leaves. *)
Theorem run_tidy (evs : list ClientEvent) (st : Server) (sock : Socket) :
  tidy (activeUsers st) →
  tidy (activeUsers (server (run castId validates evs st sock))).
Proof.
  revert st sock. induction evs as [| ev evs IH]; intros st sock Ht; simpl;
    [done |].
  apply IH. clear IH.
  destruct ev as [now pageId | now now' d | d | now b | b | b | now d | now d
                 | now d |]; simpl.
  - unfold join_page, fail.
    destruct (findById castId (pages st) pageId); simpl; try done.
    destruct (negb _); simpl; [done |].
    destruct (boundRoom sock); simpl; apply addUserToPage_tidy;
      [by apply removeUserFromPage_tidy | done].
  - unfold update_blocks, fail, commit.
    destruct (findById _ _ _); simpl; try done.
    destruct (negb _); simpl; [done |]. by destruct (save _ _ _ _).
  - unfold cursor_move, ephemeral. by destruct (boundRoom sock).
  - unfold block_select, ephemeral. by destruct (boundRoom sock).
  - unfold typing_start, ephemeral. by destruct (boundRoom sock).
  - unfold typing_stop, ephemeral. by destruct (boundRoom sock).
  - unfold update_page_settings, fail, commit.
    destruct (findById _ _ _); simpl; try done.
    destruct (negb _); simpl; [done |]. by destruct (save _ _ _ _).
  - unfold update_page_title, fail, commit.
    destruct (findById _ _ _); simpl; try done.
    destruct (negb _); simpl; [done |]. by destruct (save _ _ _ _).
  - unfold undo_redo, fail, commit, skip.
    destruct (findById _ _ _); simpl; try done.
    destruct (negb _); simpl; [done |].
    destruct (navigateHistory _ _); simpl; [| done]. by destruct (save _ _ _ _).
  - unfold disconnect, skip. destruct (boundRoom sock); simpl; [| done].
    by apply removeUserFromPage_tidy.
Qed.

(** X10. A connection with no current page that joins a page on which its
    user was not counted, and then disconnects, leaves the whole server
    state as it found it; the disconnect tells the room with [user-left]. *)
Theorem join_then_disconnect_restores (now : Z) (pageId : string) (st : Server)
    (sock : Socket) (page : Page) :
  tidy (activeUsers st) →
  boundRoom sock = None →
  present pageId (userId sock) (activeUsers st) = false →
  pageId ≠ "" →
  findById castId (pages st) pageId = Loaded page →
  hasAccessDefault page (userId sock) = true →
  let joined := join_page castId now pageId st sock in
  let gone := disconnect (server joined) (socket joined) in
  server gone = st ∧
  emitted gone = [EmitRoom pageId (UserLeft (userId sock) (user sock))].
Proof.
  intros Ht Hb Hp Hid Hf Ha joined gone. subst gone joined.
  rewrite (join_page_joined now pageId st sock page Hf Ha). rewrite Hb. simpl.
  unfold disconnect, boundRoom. simpl. rewrite bool_decide_eq_true_2 by done.
  simpl. rewrite remove_add_round_trip by done. by destruct st.
Qed.

(** X12. Presence is kept per user, not per connection. When two
    connections of one user join the same page the user is counted once,
    and as soon as one of them disconnects the user is no longer counted on
    the page although the other connection is still bound to it. *)
Theorem second_connection_loses_presence (now now' : Z) (pageId : string)
    (st : Server) (s1 s2 : Socket) (page : Page) :
  userId s1 = userId s2 →
  boundRoom s1 = None → boundRoom s2 = None →
  pageId ≠ "" →
  findById castId (pages st) pageId = Loaded page →
  hasAccessDefault page (userId s1) = true →
  let o1 := join_page castId now pageId st s1 in
  let o2 := join_page castId now' pageId (server o1) s2 in
  let o3 := disconnect (server o2) (socket o1) in
  headCount pageId (activeUsers (server o2)) = headCount pageId (activeUsers (server o1)) ∧
  boundRoom (socket o2) = Some pageId ∧
  present pageId (userId s2) (activeUsers (server o3)) = false.
Proof.
  intros Hu Hb1 Hb2 Hid Hf Ha o1 o2 o3. subst o3 o2 o1.
  rewrite (join_page_joined now pageId st s1 page Hf Ha). rewrite Hb1. simpl.
  assert (Ha2 : hasAccessDefault page (userId s2) = true) by (by rewrite <- Hu).
  rewrite (join_page_joined now' pageId (mkServer (pages st) _) s2 page Hf Ha2).
  rewrite Hb2. simpl.
  split; [| split].
  - rewrite headCount_after_add. rewrite <- Hu.
    by rewrite present_after_add.
  - unfold boundRoom. simpl. by rewrite bool_decide_eq_true_2.
  - unfold disconnect, boundRoom. simpl. rewrite bool_decide_eq_true_2 by done.
    simpl. rewrite Hu. apply present_after_remove.
Qed.

(** X13. A user who is neither the owner of a page nor one of its
    collaborators cannot join it: the connection keeps its current page and
    rooms, the registry is untouched and the only emission is an [error]
    event to the sender. *)
Theorem join_page_stranger_refused (now : Z) (pageId : string) (st : Server)
    (sock : Socket) (page : Page) :
  findById castId (pages st) pageId = Loaded page →
  owner page ≠ userId sock →
  (∀ c, c ∈ collaborators page → collab_user c ≠ userId sock) →
  join_page castId now pageId st sock =
  mkOutcome st sock [EmitSelf (ErrorEvent "Access denied to this page")].
Proof.
  intros Hf Ho Hc. unfold join_page. rewrite Hf.
  destruct (hasAccessDefault page (userId sock)) eqn:Ha; [| done].
  apply hasAccessDefault_listed in Ha as [Ha | (c & Hin & Hu)]; [done |].
  by destruct (Hc c Hin).
Qed.

(** X14. A successful [join-page] (the page exists and the user is its
    owner or a collaborator) binds the connection to the page, counts the
    user on it and no longer on the page left behind, does not touch the
    stored pages, and sends the joiner a list of active users in which the
    joiner's own entry appears. *)
Theorem join_page_success (now : Z) (pageId : string) (st : Server)
    (sock : Socket) (page : Page) :
  findById castId (pages st) pageId = Loaded page →
  hasAccessDefault page (userId sock) = true →
  let o := join_page castId now pageId st sock in
  currentPageId (socket o) = Some pageId ∧
  pages (server o) = pages st ∧
  present pageId (userId sock) (activeUsers (server o)) = true ∧
  (∀ cur, boundRoom sock = Some cur → cur ≠ pageId →
     present cur (userId sock) (activeUsers (server o)) = false) ∧
  ∃ users,
    emitted o = [EmitRoom pageId (UserJoined (userId sock) (user sock));
                 EmitSelf (ActiveUsers users)] ∧
    mkActiveUser (user_id (user sock)) (user_name (user sock))
      (user_avatar (user sock)) now ∈ users.
Proof.
  intros Hf Ha o. subst o.
  rewrite (join_page_joined now pageId st sock page Hf Ha). simpl.
  split; [done |]. split; [done |].
  split; [apply present_after_add |]. split.
  - intros cur Hcur Hne. rewrite Hcur.
    rewrite present_add_other by congruence.
    apply present_after_remove.
  - eexists. split; [reflexivity |]. apply entry_after_add.
Qed.

Lemma handle_userId (ev : ClientEvent) (st : Server) (sock : Socket) :
  userId (socket (handle castId validates ev st sock)) = userId sock.
Proof.
  destruct ev; simpl;
    unfold join_page, update_blocks, cursor_move, block_select, typing_start,
      typing_stop, update_page_settings, update_page_title, undo_redo,
      disconnect, ephemeral, fail, commit, skip;
    repeat match goal with
           | |- context [match ?x with _ => _ end] => destruct x; simpl
           end; done.
Qed.

(** X15. A connection is never in two page rooms: if every room it is in is
    the one [currentPageId] names, this is still so after any run of events
    (an empty identifier never casts, so it names no page). *)
Theorem run_single_room (evs : list ClientEvent) (st : Server) (sock : Socket) :
  castId "" = false →
  singleRoom sock →
  singleRoom (socket (run castId validates evs st sock)).
Proof.
  intros Hempty. revert st sock.
  induction evs as [| ev evs IH]; intros st sock Hone; simpl; [done |].
  apply IH. clear IH.
  destruct ev as [now pageId | now now' d | d | now b | b | b | now d | now d
                 | now d |]; simpl.
  - destruct (decide (pageId = "")) as [-> | Hid].
    + unfold join_page, findById. by rewrite Hempty.
    + by apply join_page_single_room.
  - unfold update_blocks, fail, commit.
    destruct (findById _ _ _); simpl; try done.
    destruct (negb _); simpl; [done |]. by destruct (save _ _ _ _).
  - unfold cursor_move, ephemeral. by destruct (boundRoom sock).
  - unfold block_select, ephemeral. by destruct (boundRoom sock).
  - unfold typing_start, ephemeral. by destruct (boundRoom sock).
  - unfold typing_stop, ephemeral. by destruct (boundRoom sock).
  - unfold update_page_settings, fail, commit.
    destruct (findById _ _ _); simpl; try done.
    destruct (negb _); simpl; [done |]. by destruct (save _ _ _ _).
  - unfold update_page_title, fail, commit.
    destruct (findById _ _ _); simpl; try done.
    destruct (negb _); simpl; [done |]. by destruct (save _ _ _ _).
  - unfold undo_redo, fail, commit, skip.
    destruct (findById _ _ _); simpl; try done.
    destruct (negb _); simpl; [done |].
    destruct (navigateHistory _ _); simpl; [| done]. by destruct (save _ _ _ _).
  - unfold disconnect, skip. by destruct (boundRoom sock).
Qed.

(** X16. An ephemeral event from a bound connection is relayed to the
    current room and nothing else happens. No handler of this kind reads
    the store: the relay goes out whatever has become of the page or of the
    sender's access to it. *)
Theorem ephemeral_bound_relayed (ev : ClientEvent) (st : Server) (sock : Socket)
    (cur : string) :
  isEphemeral ev = true →
  boundRoom sock = Some cur →
  ∃ payload,
    handle castId validates ev st sock = mkOutcome st sock [EmitRoom cur payload] ∧
    eventName payload ∈ ["user-cursor"; "block-selected"; "user-typing"].
Proof.
  intros He Hb.
  destruct ev; try discriminate He; simpl;
    unfold cursor_move, block_select, typing_start, typing_stop, ephemeral;
    rewrite Hb; eexists; (split; [reflexivity |]); simpl; set_solver.
Qed.

(** Every write of a handler to the store was let through by the editor
    check on the page it loaded. *)
Lemma handle_write_checked (ev : ClientEvent) (st : Server) (sock : Socket) :
  pages (server (handle castId validates ev st sock)) = pages st ∨
  ∃ pageId page,
    pages st !! pageId = Some page ∧ hasAccess page (userId sock) editor = true.
Proof.
  destruct ev as [now pageId | now now' d | d | now b | b | b | now d | now d
                 | now d |]; simpl.
  - unfold join_page, fail.
    destruct (findById castId (pages st) pageId); simpl; try by left.
    destruct (negb _); simpl; [by left |].
    destruct (boundRoom sock); by left.
  - unfold update_blocks, findById, fail.
    destruct (castId _), (pages st !! ub_pageId d) as [page |] eqn:Hp;
      simpl; try by left.
    destruct (hasAccess page (userId sock) editor) eqn:Ha; simpl; [| by left].
    right. by exists (ub_pageId d), page.
  - unfold cursor_move, ephemeral. destruct (boundRoom sock); by left.
  - unfold block_select, ephemeral. destruct (boundRoom sock); by left.
  - unfold typing_start, ephemeral. destruct (boundRoom sock); by left.
  - unfold typing_stop, ephemeral. destruct (boundRoom sock); by left.
  - unfold update_page_settings, findById, fail.
    destruct (castId _), (pages st !! sd_pageId d) as [page |] eqn:Hp;
      simpl; try by left.
    destruct (hasAccess page (userId sock) editor) eqn:Ha; simpl; [| by left].
    right. by exists (sd_pageId d), page.
  - unfold update_page_title, findById, fail.
    destruct (castId _), (pages st !! td_pageId d) as [page |] eqn:Hp;
      simpl; try by left.
    destruct (hasAccess page (userId sock) editor) eqn:Ha; simpl; [| by left].
    right. by exists (td_pageId d), page.
  - unfold undo_redo, findById, fail.
    destruct (castId _), (pages st !! ur_pageId d) as [page |] eqn:Hp;
      simpl; try by left.
    destruct (hasAccess page (userId sock) editor) eqn:Ha; simpl; [| by left].
    right. by exists (ur_pageId d), page.
  - unfold disconnect, skip. destruct (boundRoom sock); by left.
Qed.

(** X17. A user who has editor access to no stored page cannot change the
    store through the socket, whatever events are sent and whatever page
    the connection is bound to. *)
Theorem run_without_editor_access (evs : list ClientEvent) (st : Server)
    (sock : Socket) :
  (∀ pageId page, pages st !! pageId = Some page →
     hasAccess page (userId sock) editor = false) →
  pages (server (run castId validates evs st sock)) = pages st.
Proof.
  revert st sock. induction evs as [| ev evs IH]; intros st sock Hno; simpl;
    [done |].
  assert (Hsame : pages (server (handle castId validates ev st sock)) = pages st).
  { destruct (handle_write_checked ev st sock) as [H | (pageId & page & Hp & Ha)];
      [done |].
    rewrite (Hno pageId page Hp) in Ha. discriminate Ha. }
  rewrite IH; [done |]. rewrite Hsame, handle_userId. exact Hno.
Qed.

End HandlerInvariants.

(** ** More on the version log *)

Lemma navigateHistory_Some (p p' : Page) (d : UndoRedoData) :
  navigateHistory p d = Some p' →
  ∃ e, e ∈ history p ∧ targetVersion p d = Some (h_version e) ∧
       findHistory p (Some (h_version e)) = Some e ∧
       p' = set_version (h_version e) (set_blocks (h_blocks e) p).
Proof.
  unfold navigateHistory. destruct (targetVersion p d) as [t |]; [| done].
  destruct (findHistory p (Some t)) as [e |] eqn:Hfind; [| done].
  intros [= <-]. exists e.
  pose proof Hfind as Hfind'. unfold findHistory in Hfind'.
  apply find_some in Hfind' as [Hin Ht]. apply bool_decide_eq_true in Ht.
  subst t. split; [by apply list_elem_of_In |]. done.
Qed.

(** X25. A successful [undo-redo] only ever installs a state recorded in the
    history: the new version and blocks are those of one history entry, the
    first that carries the target version. The history itself, the title,
    the settings, the owner and the collaborators are left as they were. *)
Theorem navigateHistory_recorded (p p' : Page) (d : UndoRedoData) :
  navigateHistory p d = Some p' →
  (∃ e, e ∈ history p ∧ targetVersion p d = Some (h_version e) ∧
        version p' = h_version e ∧ blocks p' = h_blocks e) ∧
  history p' = history p ∧ title p' = title p ∧ settings p' = settings p ∧
  owner p' = owner p ∧ collaborators p' = collaborators p.
Proof.
  intros Hnav. apply navigateHistory_Some in Hnav as (e & Hin & Ht & _ & ->).
  split; [by exists e | done].
Qed.

(** X24. Redo inverts undo whenever the state being undone is itself the
    snapshot the history holds for its version: if the history has an entry
    for the previous version, and the first entry for the current version
    holds the current blocks, then undo followed by redo gives the page
    back exactly. *)
Theorem undo_then_redo_round_trip (p : Page) (pageId : string)
    (prev cur : HistoryEntry) :
  findHistory p (Some (version p - 1)%Z) = Some prev →
  findHistory p (Some (version p)) = Some cur →
  h_blocks cur = blocks p →
  ∃ p1,
    navigateHistory p (mkUndoRedoData pageId (Some "undo") None) = Some p1 ∧
    blocks p1 = h_blocks prev ∧ version p1 = (version p - 1)%Z ∧
    navigateHistory p1 (mkUndoRedoData pageId (Some "redo") None) = Some p.
Proof.
  intros Hprev Hcur Hblocks.
  set (p1 := set_version (version p - 1) (set_blocks (h_blocks prev) p)).
  exists p1. split; [| split; [done | split; [done |]]].
  - assert (Ht : targetVersion p (mkUndoRedoData pageId (Some "undo") None)
                 = Some (version p - 1)%Z) by reflexivity.
    unfold navigateHistory. by rewrite Ht, Hprev.
  - assert (Ht : targetVersion p1 (mkUndoRedoData pageId (Some "redo") None)
                 = Some (version p)).
    { unfold targetVersion. simpl. f_equal. lia. }
    assert (Hf : findHistory p1 (Some (version p)) = Some cur) by exact Hcur.
    unfold navigateHistory. rewrite Ht, Hf, Hblocks. by destruct p.
Qed.

Lemma pushHistory_positive (e : HistoryEntry) (p : Page) :
  (1 ≤ h_version e)%Z →
  Forall (λ h, (1 ≤ h_version h)%Z) (history p) →
  Forall (λ h, (1 ≤ h_version h)%Z) (history (pushHistory e p)).
Proof.
  intros He Hp. rewrite pushHistory_drop. apply Forall_drop.
  apply Forall_app. split; [done |]. by constructor.
Qed.

Lemma applyMutation_positive (p : Page) (m : Mutation) :
  versionsPositive p → versionsPositive (applyMutation p m).
Proof.
  intros [Hv Hh]. unfold versionsPositive.
  destruct m as [u d now | s | t | d | u b now | u body now]; simpl.
  - split; [lia | by apply pushHistory_positive].
  - done.
  - done.
  - destruct (navigateHistory p d) as [p' |] eqn:Hnav; simpl; [| done].
    apply navigateHistory_Some in Hnav as (e & Hin & _ & _ & ->). simpl.
    split; [| done]. by eapply (proj1 (Forall_forall _ _) Hh).
  - split; [lia | by apply pushHistory_positive].
  - unfold applyPutPage.
    destruct (pb_blocks body), (pb_title body); simpl;
      (split; [lia | by try apply pushHistory_positive]).
Qed.

(** X23. The version of a page never drops below 1: a page as created
    starts at version 1 with an empty history, and every mutation keeps the
    version and all recorded versions at 1 or above. So on such a page at
    version 1 an undo finds nothing and changes nothing. *)
Theorem version_never_below_one (t o : string) (s : gmap string string)
    (ms : list Mutation) (pageId : string) :
  let p := applyMutations ms (newPage t o s) in
  (1 ≤ version p)%Z ∧
  Forall (λ h, (1 ≤ h_version h)%Z) (history p) ∧
  (version p = 1%Z →
   navigateHistory p (mkUndoRedoData pageId (Some "undo") None) = None).
Proof.
  intros p.
  assert (Hpos : versionsPositive p).
  { subst p. unfold applyMutations.
    assert (H0 : versionsPositive (newPage t o s)) by (split; [simpl; lia | constructor]).
    revert H0. generalize (newPage t o s).
    induction ms as [| m ms IH]; intros q Hq; simpl; [done |].
    apply IH. by apply applyMutation_positive. }
  destruct Hpos as [Hv Hh]. split; [done |]. split; [done |].
  intros H1. destruct (navigateHistory p _) as [p' |] eqn:Hnav; [| done].
  apply navigateHistory_Some in Hnav as (e & Hin & Ht & _).
  unfold targetVersion in Ht. simpl in Ht. inversion Ht as [Hev].
  pose proof (proj1 (Forall_forall _ _) Hh e Hin) as He. simpl in He. lia.
Qed.

Lemma applyMutation_pushes (p : Page) (m : Mutation) :
  pushes m = true →
  version (applyMutation p m) = (version p + 1)%Z ∧
  length (history (applyMutation p m)) = (length (history p) + 1) `min` 10.
Proof.
  intros Hm. split.
  - destruct m as [u d now | s | t | d | u b now | u body now]; try done.
    simpl in Hm. apply bool_decide_eq_true in Hm as [b Hb].
    simpl. unfold applyPutPage. rewrite Hb. by destruct (pb_title body).
  - rewrite applyMutation_history.
    destruct m as [u d now | s | t | d | u b now | u body now]; try done;
      simpl; try apply pushHistory_length.
    simpl in Hm. apply bool_decide_eq_true in Hm as [b Hb].
    rewrite Hb. apply pushHistory_length.
Qed.

(** X26. The version counts the block replacements: after a sequence of
    mutations that all replace the blocks (over the socket or over REST),
    the version has grown by the length of the sequence, while the history
    of a page within the cap has grown by as much only up to 10 entries. *)
Theorem version_counts_block_writes (ms : list Mutation) (p : Page) :
  Forall (λ m, pushes m = true) ms →
  length (history p) ≤ 10 →
  version (applyMutations ms p) = (version p + Z.of_nat (length ms))%Z ∧
  length (history (applyMutations ms p)) = (length (history p) + length ms) `min` 10.
Proof.
  unfold applyMutations. revert p.
  induction ms as [| m ms IH]; intros p Hall Hcap; simpl.
  - split; lia.
  - apply Forall_cons in Hall as [Hm Hall].
    destruct (applyMutation_pushes p m Hm) as [Hv Hl].
    destruct (IH (applyMutation p m) Hall) as [IHv IHl]; [lia |].
    rewrite IHv, IHl, Hv, Hl. split; lia.
Qed.

(** ** The REST routes *)

Section RouteProperties.

Variable castId : string -> bool.
Variable validates : Page -> bool.

(** X18. A REST write request changes the store only when it answers 200,
    only at the page it addresses, and only when the requester holds the
    right its route asks for on that page as stored: editor for the two PUT
    routes, admin for the collaborator routes, ownership for DELETE. *)
Theorem route_checked (users : gmap string Account) (requester : string)
    (r : RestRequest) (db : gmap string Page) :
  let out := route castId validates users requester r db in
  (res_status out.1 ≠ 200 → out.2 = db) ∧
  (out.2 ≠ db →
   ∃ page, db !! requestPage r = Some page ∧ authorised r page requester = true) ∧
  (∀ pageId, pageId ≠ requestPage r → out.2 !! pageId = db !! pageId).
Proof.
  destruct r as [now pageId b | now pageId body | now pageId uid role
                | pageId uid | pageId]; simpl;
    unfold put_blocks, put_page, post_collaborator, delete_collaborator,
      delete_page, findById, findUser, save.
  - destruct (castId pageId), (db !! pageId) as [page |] eqn:Hp; simpl; try done.
    destruct (hasAccess page requester editor) eqn:Ha; simpl; [| done].
    destruct (validates _); simpl; [| done].
    split; [done |]. split; [by exists page |].
    intros id Hid. by rewrite lookup_insert_ne.
  - destruct (castId pageId), (db !! pageId) as [page |] eqn:Hp; simpl; try done.
    destruct (hasAccess page requester editor) eqn:Ha; simpl; [| done].
    destruct (validates _); simpl; [| done].
    split; [done |]. split; [by exists page |].
    intros id Hid. by rewrite lookup_insert_ne.
  - destruct (castId pageId), (db !! pageId) as [page |] eqn:Hp; simpl; try done.
    destruct (hasAccess page requester admin) eqn:Ha; simpl; [| done].
    destruct (castId uid); simpl; [| done].
    destruct (users !! uid); simpl; [| done].
    destruct (findCollaborator page uid); simpl; [done |].
    destruct (validates _); simpl; [| done].
    split; [done |]. split; [by exists page |].
    intros id Hid. by rewrite lookup_insert_ne.
  - destruct (castId pageId), (db !! pageId) as [page |] eqn:Hp; simpl; try done.
    destruct (hasAccess page requester admin) eqn:Ha; simpl; [| done].
    destruct (validates _); simpl; [| done].
    split; [done |]. split; [by exists page |].
    intros id Hid. by rewrite lookup_insert_ne.
  - destruct (castId pageId), (db !! pageId) as [page |] eqn:Hp; simpl; try done.
    destruct (bool_decide (owner page = requester)) eqn:Ho; simpl; [| done].
    split; [done |]. split; [by exists page |].
    intros id Hid. by rewrite lookup_delete_ne.
Qed.

(** X19. Only the owner can delete a page. For a page that exists, DELETE
    answers 200 and removes it exactly when the requester is the owner; any
    other requester, an admin collaborator included, gets 403 and the store
    is unchanged. *)
Theorem delete_page_owner_only (requester pageId : string)
    (db : gmap string Page) (page : Page) :
  findById castId db pageId = Loaded page →
  let out := delete_page castId requester pageId db in
  (owner page = requester →
   res_status out.1 = 200 ∧ out.2 !! pageId = None ∧
   findById castId out.2 pageId = Missing) ∧
  (owner page ≠ requester →
   out.1 = reply 403 "Access denied" ∧ out.2 = db).
Proof.
  intros Hf out. subst out. unfold delete_page. rewrite Hf.
  apply findById_Loaded in Hf as [Hc Hp]. split.
  - intros Ho. rewrite bool_decide_eq_true_2 by done. simpl.
    split; [done |]. rewrite lookup_delete_eq. split; [done |].
    unfold findById. by rewrite Hc, lookup_delete_eq.
  - intros Ho. by rewrite bool_decide_eq_false_2.
Qed.

(** X20. Events that name a page the store does not hold change nothing.
    [join-page] answers "Page not found"; the four mutating handlers answer
    "Access denied", the same message a refused editor check gives. *)
Theorem missing_page_events (st : Server) (sock : Socket) (pageId : string)
    (now now' : Z) :
  castId pageId = true →
  pages st !! pageId = None →
  join_page castId now pageId st sock
    = mkOutcome st sock [EmitSelf (ErrorEvent "Page not found")] ∧
  (∀ d, ub_pageId d = pageId →
     update_blocks castId validates now now' d st sock
     = mkOutcome st sock [EmitSelf (ErrorEvent "Access denied")]) ∧
  (∀ d, sd_pageId d = pageId →
     update_page_settings castId validates now d st sock
     = mkOutcome st sock [EmitSelf (ErrorEvent "Access denied")]) ∧
  (∀ d, td_pageId d = pageId →
     update_page_title castId validates now d st sock
     = mkOutcome st sock [EmitSelf (ErrorEvent "Access denied")]) ∧
  (∀ d, ur_pageId d = pageId →
     undo_redo castId validates now d st sock
     = mkOutcome st sock [EmitSelf (ErrorEvent "Access denied")]).
Proof.
  intros Hc Hp.
  assert (Hf : findById castId (pages st) pageId = Missing).
  { unfold findById. by rewrite Hc, Hp. }
  split; [unfold join_page; by rewrite Hf |].
  repeat split; intros d <-.
  - unfold update_blocks. by rewrite Hf.
  - unfold update_page_settings. by rewrite Hf.
  - unfold update_page_title. by rewrite Hf.
  - unfold undo_redo. by rewrite Hf.
Qed.

(** X21. Removing a collaborator over REST takes effect on the socket at
    once: after an accepted DELETE of the collaborator entry of a user who
    is not the owner, an [update-blocks] of that user for the page is
    refused with "Access denied" and writes nothing. *)
Theorem revoked_collaborator_rejected (requester pageId uid : string)
    (db : gmap string Page) (page : Page) (registry : Presence)
    (sock : Socket) (d : UpdateBlocksData) (now now' : Z) :
  findById castId db pageId = Loaded page →
  hasAccess page requester admin = true →
  validates (removeCollaborator uid page) = true →
  owner page ≠ uid →
  userId sock = uid → ub_pageId d = pageId →
  let out := delete_collaborator castId validates requester pageId uid db in
  let st := mkServer out.2 registry in
  res_status out.1 = 200 ∧
  update_blocks castId validates now now' d st sock
  = mkOutcome st sock [EmitSelf (ErrorEvent "Access denied")].
Proof.
  intros Hf Ha Hv Ho Hu Hd out st. subst st out.
  unfold delete_collaborator, save. rewrite Hf, Ha, Hv. simpl.
  split; [done |].
  apply findById_Loaded in Hf as [Hc Hp].
  unfold update_blocks, findById. simpl.
  rewrite Hd, Hc, lookup_insert_eq, Hu.
  by rewrite removeCollaborator_no_access.
Qed.

(** X22. The two PUT routes validate with different schemas. When a body
    that carries only [blocks] passes [updatePageSchema] and the same blocks
    pass [updateBlocksSchema], PUT /api/pages/:id and
    PUT /api/pages/:id/blocks leave the same store and answer with the same
    status and page. When its schema refuses, a route answers 400 with the
    schema's message and leaves the store as it was, whatever the other
    route does with the same blocks. *)
Theorem put_routes_agree_when_valid
    (updatePageSchema : PutPageBody → option string)
    (updateBlocksSchema : list Block → option string)
    (now : Z) (requester pageId : string)
    (b : list Block) (db : gmap string Page) :
  let body := mkPutPageBody None (Some b) in
  let viaPage :=
    put_page_route updatePageSchema castId validates now requester pageId body db in
  let viaBlocks :=
    put_blocks_route updateBlocksSchema castId validates now requester pageId b db in
  (updatePageSchema body = None → updateBlocksSchema b = None →
   viaPage.2 = viaBlocks.2 ∧
   res_status viaPage.1 = res_status viaBlocks.1 ∧
   res_page viaPage.1 = res_page viaBlocks.1) ∧
  (∀ message, updatePageSchema body = Some message →
     viaPage = (reply 400 message, db)) ∧
  (∀ message, updateBlocksSchema b = Some message →
     viaBlocks = (reply 400 message, db)).
Proof.
  intros body viaPage viaBlocks. subst viaPage viaBlocks body.
  unfold put_page_route, put_blocks_route, validateRequest.
  split; [| split].
  - intros -> ->. unfold put_page, put_blocks.
    destruct (findById castId db pageId) as [| | page]; simpl; try done.
    destruct (negb _); simpl; [done |].
    assert (Heq : applyPutPage requester (mkPutPageBody None (Some b)) now page
                  = applyPutBlocks requester b now page) by reflexivity.
    rewrite Heq. by destruct (save validates db pageId _).
  - by intros message ->.
  - by intros message ->.
Qed.

End RouteProperties.

(** ** Authentication of a connection *)

(** X27. The middleware lets a connection through exactly when the token is
    present and not empty, verifies, and names a stored user that is
    active. The connection then carries that user, has no current page and
    is in no room. *)
Theorem authenticate_accepts (verify : string → option string)
    (castId : string -> bool) (users : gmap string Account)
    (sid : string) (token : option string) (sock : Socket) :
  authenticate verify castId users sid token = inr sock ↔
  ∃ t id account,
    token = Some t ∧ t ≠ "" ∧ verify t = Some id ∧ castId id = true ∧
    users !! id = Some account ∧ acc_isActive account = true ∧
    sock = mkSocket sid (user_id (acc_user account)) (acc_user account) None ∅.
Proof.
  unfold authenticate, findUser, truthy. split.
  - destruct token as [t |]; simpl; [| done].
    case_bool_decide as Ht; simpl; [| done].
    destruct (verify t) as [id |] eqn:Hv; [| done].
    destruct (castId id) eqn:Hc; [| done].
    destruct (users !! id) as [account |] eqn:Hu; [| done].
    destruct (acc_isActive account) eqn:Hact; simpl; [| done].
    intros [= <-]. by exists t, id, account.
  - intros (t & id & account & -> & Ht & Hv & Hc & Hu & Hact & ->). simpl.
    rewrite bool_decide_eq_true_2 by done. simpl.
    by rewrite Hv, Hc, Hu, Hact.
Qed.

(** ** The slug *)

Lemma replaceRuns_elem (inClass : N → bool) (s : list N) (c : N) :
  c ∈ replaceRuns inClass s → c = 45%N ∨ (c ∈ s ∧ inClass c = false).
Proof.
  induction s as [| x rest IH]; simpl; [by intros H; inversion H |].
  destruct (inClass x) eqn:Hx.
  - destruct rest as [| y rest'].
    + intros H. apply list_elem_of_singleton in H. by left.
    + destruct (inClass y) eqn:Hy.
      * intros H. destruct (IH H) as [-> | [Hin Hc]]; [by left |].
        right. split; [by right | done].
      * intros H. apply elem_of_cons in H as [-> | H]; [by left |].
        destruct (IH H) as [-> | [Hin Hc]]; [by left |].
        right. split; [by right | done].
  - intros H. apply elem_of_cons in H as [-> | H].
    + right. split; [by left | done].
    + destruct (IH H) as [-> | [Hin Hc]]; [by left |].
      right. split; [by right | done].
Qed.

Lemma trimStart_clean (s : list N) :
  Forall (λ c, isWhiteSpace c = false) s → trimStart s = s.
Proof.
  destruct s as [| c rest]; [done |]. intros H.
  apply Forall_cons in H as [Hc _]. simpl. by rewrite Hc.
Qed.

Lemma trim_clean (s : list N) :
  Forall (λ c, isWhiteSpace c = false) s → trim s = s.
Proof.
  intros H. unfold trim. rewrite (trimStart_clean s H).
  rewrite trimStart_clean by (by apply Forall_reverse).
  apply reverse_involutive.
Qed.

Lemma slug_stage_chars (toLowerCase : list N → list N) (t : list N) :
  Forall (λ c, slugChar c = true)
    (replaceRuns isHyphen
       (replaceRuns isWhiteSpace (List.filter slugKeep (toLowerCase t)))).
Proof.
  apply Forall_forall. intros c Hc.
  apply replaceRuns_elem in Hc as [-> | [Hc _]]; [done |].
  apply replaceRuns_elem in Hc as [-> | [Hc Hw]]; [done |].
  apply list_elem_of_In, filter_In in Hc as [_ Hk].
  unfold slugKeep in Hk. unfold slugChar. unfold isWhiteSpace in Hw.
  destruct (c =? 32)%N eqn:H32.
  - rewrite !orb_true_r in Hw. simpl in Hw. 
    apply N.eqb_eq in H32. subst c. by vm_compute in Hw.
  - by rewrite orb_false_r in Hk.
Qed.

Lemma slugChar_not_white (c : N) : slugChar c = true → isWhiteSpace c = false.
Proof.
  unfold slugChar, isWhiteSpace. intros H.
  repeat (apply orb_prop in H as [H | H]);
    try (apply andb_prop in H as [H1 H2]; apply N.leb_le in H1, H2);
    try apply N.eqb_eq in H;
    repeat (apply orb_false_intro);
    try (apply andb_false_iff);
    try (apply N.eqb_neq; lia);
    try (right; apply N.leb_gt; lia); try (left; apply N.leb_gt; lia).
Qed.

Lemma slug_stage_clean (toLowerCase : list N → list N) (t : list N) :
  Forall (λ c, isWhiteSpace c = false)
    (replaceRuns isHyphen
       (replaceRuns isWhiteSpace (List.filter slugKeep (toLowerCase t)))).
Proof.
  eapply Forall_impl; [apply slug_stage_chars |].
  intros c. apply slugChar_not_white.
Qed.

(** X28. [trim('-')] strips nothing from a slug: [trim] ignores its
    argument and removes white space only, and none is left at that point.
    The slug is what the three [replace] calls produce, so a hyphen at
    either end stays. *)
Theorem slugify_trim_is_idle (toLowerCase : list N → list N) (t : list N) :
  slugify toLowerCase t =
  replaceRuns isHyphen
    (replaceRuns isWhiteSpace (List.filter slugKeep (toLowerCase t))).
Proof. unfold slugify. apply trim_clean, slug_stage_clean. Qed.

(** X29. Whatever the title and the case mapping, a slug consists of
    lower-case ASCII letters, digits and hyphens only. *)
Theorem slugify_alphabet (toLowerCase : list N → list N) (t : list N) :
  Forall (λ c, slugChar c = true) (slugify toLowerCase t).
Proof.
  unfold slugify. rewrite trim_clean by apply slug_stage_clean.
  apply slug_stage_chars.
Qed.

Lemma replaceRuns_hyphen_single (s : list N) :
  doubleHyphen (replaceRuns isHyphen s) = false.
Proof.
  induction s as [| x rest IH]; [done |]. simpl.
  destruct (isHyphen x) eqn:Hx.
  - destruct rest as [| y rest']; [done |].
    destruct (isHyphen y) eqn:Hy; [done |].
    simpl in IH. rewrite Hy in IH. simpl. rewrite Hy.
    change (isHyphen 45 && isHyphen y
            || doubleHyphen (y :: replaceRuns isHyphen rest') = false).
    rewrite Hy. exact IH.
  - destruct (replaceRuns isHyphen rest) as [| z rest'] eqn:Hr; [done |].
    change (isHyphen x && isHyphen z || doubleHyphen (z :: rest') = false).
    by rewrite Hx.
Qed.

(** X30. A slug never has two hyphens in a row. *)
Theorem slugify_no_double_hyphen (toLowerCase : list N → list N) (t : list N) :
  doubleHyphen (slugify toLowerCase t) = false.
Proof.
  unfold slugify. rewrite trim_clean by apply slug_stage_clean.
  apply replaceRuns_hyphen_single.
Qed.

(** * Instances of the further properties *)

Lemma tidy_empty : tidy ∅.
Proof. intros pageId pageUsers H. by rewrite lookup_empty in H. Qed.

(** Carol, a listed viewer, passes the default check on [p1]. *)
Lemma hasAccessDefault_iff_witness : hasAccessDefault page1 "u3" = true.
Proof.
  apply hasAccessDefault_iff. right. exists (mkCollaborator "u3" viewer 0).
  split; [apply list_elem_of_In; simpl; tauto | reflexivity].
Defined.

(** Alice is added to [p1] in an empty registry. *)
Lemma addUserToPage_present_witness :
  present "p1" "u1" (addUserToPage "p1" "u1" alice 0 ∅) = true ∧
  present "p2" "u1" (addUserToPage "p1" "u1" alice 0 ∅) = present "p2" "u1" ∅.
Proof.
  destruct (addUserToPage_present "p1" "u1" alice 0 ∅) as (Hp & _ & Hf).
  split; [exact Hp |]. apply Hf. discriminate.
Defined.

(** Alice is removed from [p1] while Bob stays. *)
Lemma removeUserFromPage_absent_witness :
  present "p1" "u1" (removeUserFromPage "p1" "u1" (activeUsers (server aliceInP1))) = false ∧
  present "p1" "u2" (removeUserFromPage "p1" "u1" (activeUsers (server aliceInP1)))
    = present "p1" "u2" (activeUsers (server aliceInP1)) ∧
  removeUserFromPage "p7" "u1" ∅ = (∅ : Presence).
Proof.
  destruct (removeUserFromPage_absent "p1" "u1" (activeUsers (server aliceInP1)))
    as (Hp & Hf & _).
  destruct (removeUserFromPage_absent "p7" "u1" ∅) as (_ & _ & Hn).
  split; [exact Hp |]. split; [apply Hf; discriminate |].
  apply Hn. apply lookup_empty.
Defined.

Lemma run_tidy_witness :
  tidy (activeUsers server0) ∧
  tidy (activeUsers (server (run anyId anyPage editSession server0 aliceSocket))).
Proof.
  split; [exact tidy_empty |].
  exact (run_tidy anyId anyPage editSession server0 aliceSocket tidy_empty).
Defined.

Lemma join_then_disconnect_restores_witness :
  let joined := join_page anyId 0 "p1" server0 aliceSocket in
  let gone := disconnect (server joined) (socket joined) in
  server gone = server0 ∧ emitted gone = [EmitRoom "p1" (UserLeft "u1" alice)].
Proof.
  assert (Hid : "p1" ≠ "") by discriminate.
  exact (join_then_disconnect_restores anyId 0 "p1" server0 aliceSocket page1
           tidy_empty eq_refl eq_refl Hid eq_refl eq_refl).
Defined.

Lemma headCount_add_witness :
  headCount "p7" (∅ : Presence) = 0 ∧
  headCount "p7" (addUserToPage "p7" "u1" alice 0 ∅) = 1.
Proof.
  destruct (headCount_add "p7" "u1" alice 0 ∅) as (Ha & Hn).
  assert (H0 : headCount "p7" (∅ : Presence) = 0) by (apply Hn; apply lookup_empty).
  split; [exact H0 |]. rewrite Ha, H0. reflexivity.
Defined.

Lemma second_connection_loses_presence_witness :
  let o1 := join_page anyId 0 "p1" server0 aliceSocket in
  let o2 := join_page anyId 1 "p1" (server o1) aliceSecondSocket in
  let o3 := disconnect (server o2) (socket o1) in
  headCount "p1" (activeUsers (server o2)) = headCount "p1" (activeUsers (server o1)) ∧
  boundRoom (socket o2) = Some "p1" ∧
  present "p1" "u1" (activeUsers (server o3)) = false.
Proof.
  assert (Hid : "p1" ≠ "") by discriminate.
  exact (second_connection_loses_presence anyId 0 1 "p1" server0 aliceSocket
           aliceSecondSocket page1 eq_refl eq_refl eq_refl Hid eq_refl eq_refl).
Defined.

Lemma join_page_stranger_refused_witness :
  join_page anyId 0 "p1" server0 daveSocket =
  mkOutcome server0 daveSocket [EmitSelf (ErrorEvent "Access denied to this page")].
Proof.
  apply (join_page_stranger_refused anyId 0 "p1" server0 daveSocket page1);
    [reflexivity | discriminate |].
  intros c Hc. apply list_elem_of_In in Hc. simpl in Hc.
  destruct Hc as [<- | [<- | []]]; discriminate.
Defined.

Lemma join_page_success_witness :
  let o := join_page anyId 0 "p1" server0 carolSocket in
  currentPageId (socket o) = Some "p1" ∧ pages (server o) = pages server0 ∧
  present "p1" "u3" (activeUsers (server o)) = true.
Proof.
  destruct (join_page_success anyId 0 "p1" server0 carolSocket page1 eq_refl eq_refl)
    as (Hc & Hp & Hpr & _).
  exact (conj Hc (conj Hp Hpr)).
Defined.

Lemma run_single_room_witness :
  nonEmptyId "" = false ∧ singleRoom aliceSocket ∧
  singleRoom (socket (run nonEmptyId anyPage
                        [JoinPage 0 "p1"; JoinPage 1 ""; JoinPage 2 "p2"]
                        server0 aliceSocket)).
Proof.
  assert (H0 : singleRoom aliceSocket).
  { intros r Hr. simpl in Hr. by apply not_elem_of_empty in Hr. }
  split; [reflexivity |]. split; [exact H0 |].
  exact (run_single_room nonEmptyId anyPage _ server0 aliceSocket eq_refl H0).
Defined.

Lemma ephemeral_bound_relayed_witness :
  boundRoom (socket aliceInP1) = Some "p1" ∧
  ∃ payload,
    handle anyId anyPage (TypingStart (Some "a")) (mkServer ∅ ∅) (socket aliceInP1)
    = mkOutcome (mkServer ∅ ∅) (socket aliceInP1) [EmitRoom "p1" payload] ∧
    eventName payload ∈ ["user-cursor"; "block-selected"; "user-typing"].
Proof.
  split; [reflexivity |].
  exact (ephemeral_bound_relayed anyId anyPage (TypingStart (Some "a"))
           (mkServer ∅ ∅) (socket aliceInP1) "p1" eq_refl eq_refl).
Defined.

Lemma run_without_editor_access_witness :
  pages (server (run anyId anyPage carolAttempts server0 carolSocket)) = pages server0.
Proof.
  apply run_without_editor_access.
  intros pageId page Hp. simpl in Hp.
  apply lookup_insert_Some in Hp as [[_ <-] | [_ Hp]]; [reflexivity |].
  apply lookup_insert_Some in Hp as [[_ <-] | [_ Hp]]; [reflexivity |].
  by rewrite lookup_empty in Hp.
Defined.

Lemma route_checked_witness :
  (route anyId anyPage accounts "u3" (PutBlocks 1 "p1" [textBlock "x"]) (pages server0)).2
    = pages server0 ∧
  (route anyId anyPage accounts "u1" (DeletePage "p1") (pages server0)).2 !! "p2"
    = Some page2.
Proof.
  destruct (route_checked anyId anyPage accounts "u3"
              (PutBlocks 1 "p1" [textBlock "x"]) (pages server0)) as (Hs & _ & _).
  destruct (route_checked anyId anyPage accounts "u1" (DeletePage "p1")
              (pages server0)) as (_ & _ & Ho).
  split; [apply Hs; discriminate |].
  rewrite (Ho "p2") by discriminate. reflexivity.
Defined.

Lemma delete_page_owner_only_witness :
  hasAccess page3 "u2" admin = true ∧
  (delete_page anyId "u2" "p3" store3).1 = reply 403 "Access denied" ∧
  (delete_page anyId "u2" "p3" store3).2 = store3 ∧
  res_status (delete_page anyId "u1" "p3" store3).1 = 200 ∧
  (delete_page anyId "u1" "p3" store3).2 !! "p3" = None.
Proof.
  destruct (delete_page_owner_only anyId "u2" "p3" store3 page3 eq_refl) as (_ & Hno).
  destruct (delete_page_owner_only anyId "u1" "p3" store3 page3 eq_refl) as (Hyes & _).
  assert (Hb : owner page3 ≠ "u2") by discriminate.
  destruct (Hno Hb) as (H1 & H2). destruct (Hyes eq_refl) as (H3 & H4 & _).
  split; [reflexivity |]. exact (conj H1 (conj H2 (conj H3 H4))).
Defined.

Lemma missing_page_events_witness :
  join_page anyId 0 "p7" server0 aliceSocket
    = mkOutcome server0 aliceSocket [EmitSelf (ErrorEvent "Page not found")] ∧
  undo_redo anyId anyPage 0 (mkUndoRedoData "p7" (Some "undo") None) server0 aliceSocket
    = mkOutcome server0 aliceSocket [EmitSelf (ErrorEvent "Access denied")].
Proof.
  destruct (missing_page_events anyId anyPage server0 aliceSocket "p7" 0 0
              eq_refl eq_refl) as (Hj & _ & _ & _ & Hu).
  split; [exact Hj |]. exact (Hu (mkUndoRedoData "p7" (Some "undo") None) eq_refl).
Defined.

Lemma revoked_collaborator_rejected_witness :
  let out := delete_collaborator anyId anyPage "u1" "p1" "u2" (pages server0) in
  let st := mkServer out.2 ∅ in
  res_status out.1 = 200 ∧
  update_blocks anyId anyPage 1 2 (replaceBlocks "a") st bobSocket
  = mkOutcome st bobSocket [EmitSelf (ErrorEvent "Access denied")].
Proof.
  assert (Ho : owner page1 ≠ "u2") by discriminate.
  exact (revoked_collaborator_rejected anyId anyPage "u1" "p1" "u2" (pages server0)
           page1 ∅ bobSocket (replaceBlocks "a") 1 2
           eq_refl eq_refl eq_refl Ho eq_refl eq_refl).
Defined.

Lemma version_never_below_one_witness :
  version (applyMutations [] (newPage "New" "u1" ∅)) = 1%Z ∧
  navigateHistory (applyMutations [] (newPage "New" "u1" ∅))
    (mkUndoRedoData "p1" (Some "undo") None) = None.
Proof.
  destruct (version_never_below_one "New" "u1" ∅ [] "p1") as (_ & _ & Hn).
  split; [reflexivity |]. exact (Hn eq_refl).
Defined.

Lemma undo_then_redo_round_trip_witness :
  ∃ p1,
    navigateHistory pageUndone undo = Some p1 ∧
    blocks p1 = [] ∧ version p1 = 1%Z ∧
    navigateHistory p1 redo = Some pageUndone.
Proof.
  exact (undo_then_redo_round_trip pageUndone "p1"
           (mkHistoryEntry 1 [] 1 "u1" "update block a")
           (mkHistoryEntry 2 [textBlock "a"] 2 "u1" "update block b")
           eq_refl eq_refl eq_refl).
Defined.

Lemma navigateHistory_recorded_witness :
  navigateHistory pageUndone undo
    = Some (set_version 1 (set_blocks [] pageUndone)) ∧
  history (set_version 1 (set_blocks [] pageUndone)) = history pageUndone.
Proof.
  assert (Hn : navigateHistory pageUndone undo
               = Some (set_version 1 (set_blocks [] pageUndone))) by reflexivity.
  destruct (navigateHistory_recorded pageUndone _ undo Hn) as (_ & Hh & _).
  exact (conj Hn Hh).
Defined.

Lemma version_counts_block_writes_witness :
  version (applyMutations twelveEdits page1) = 13%Z ∧
  length (history (applyMutations twelveEdits page1)) = 10.
Proof.
  assert (Hall : Forall (λ m, pushes m = true) twelveEdits)
    by (by repeat constructor).
  assert (Hcap : length (history page1) ≤ 10) by (simpl; lia).
  destruct (version_counts_block_writes twelveEdits page1 Hall Hcap) as (Hv & Hl).
  split; [rewrite Hv | rewrite Hl]; reflexivity.
Defined.

Lemma authenticate_accepts_witness :
  authenticate tokenOf anyId accounts "s1" (Some "token-alice") = inr aliceSocket ∧
  ¬ authenticate tokenOf anyId accounts "s3" (Some "token-carol") = inr carolSocket.
Proof.
  split.
  - apply authenticate_accepts. exists "token-alice", "u1", (mkAccount alice true).
    repeat split; try reflexivity. discriminate.
  - intros H. apply authenticate_accepts in H
      as (t & id & account & Ht & _ & Hv & _ & Hu & Hact & _).
    inversion Ht. subst t. inversion Hv. subst id.
    inversion Hu. subst account. discriminate Hact.
Defined.

(** Alice replaces the blocks of [p1] through both routes; then a schema
    that refuses the block list. *)
Lemma put_routes_agree_when_valid_witness :
  (put_page_route acceptAll anyId anyPage 1 "u1" "p1"
     (mkPutPageBody None (Some [textBlock "a"])) (pages server0)).2
  = (put_blocks_route acceptAll anyId anyPage 1 "u1" "p1" [textBlock "a"]
       (pages server0)).2 ∧
  put_blocks_route refuseBlocks anyId anyPage 1 "u1" "p1" [textBlock "a"] (pages server0)
  = (reply 400 "blocks[0].content is required", pages server0).
Proof.
  destruct (put_routes_agree_when_valid anyId anyPage acceptAll acceptAll 1 "u1" "p1"
              [textBlock "a"] (pages server0)) as (Hsame & _ & _).
  destruct (put_routes_agree_when_valid anyId anyPage acceptAll refuseBlocks 1 "u1"
              "p1" [textBlock "a"] (pages server0)) as (_ & _ & Hrefused).
  split; [exact (proj1 (Hsame eq_refl eq_refl)) |].
  exact (Hrefused "blocks[0].content is required" eq_refl).
Defined.
